(** * RBACService: credential and session lifecycle, and the role guard

    A shallow embedding of [AuthService] (auth.service.ts),
    [JwtRefreshStrategy] (jwt-refresh.strategy.ts), the refresh route of
    [AuthController] and the guard wiring of [UsersController], together
    with the properties the specification states about them.

    The user table is a list of rows threaded through a small
    state-and-exception monad.  The bcrypt module the service imports and
    the JWT and configuration services it is given are interfaces here, each
    with the contract of the library behind it. *)

From Stdlib Require Import String Ascii List Bool Arith Lia.
Import ListNotations.
Open Scope string_scope.

(* ===================================================================== *)
(** ** Data model *)
(* ===================================================================== *)

(** Modelled from the spec: the [UserRole] enum (user-role.enum.ts is not
    among the sources).  "Role (one of a closed set: user, moderator,
    admin)". *)
Inductive UserRole : Type := USER | ADMIN | MODERATOR.

Definition UserRole_eqb (a b : UserRole) : bool :=
  match a, b with
  | USER, USER | ADMIN, ADMIN | MODERATOR, MODERATOR => true
  | _, _ => false
  end.

(** Modelled from the spec: the [User] entity (user.entity.ts is not among
    the sources).  "Principal: identifier, email (unique, case-sensitive as
    stored), password hash, role, active flag, refresh-token hash (nullable -
    null means no live session)".  The two store-maintained timestamps are
    left out: nothing in the service, the strategies or the guards reads or
    assigns them. *)
Record User : Type := mkUser {
  id : string;
  email : string;
  password : string;              (* bcrypt digest, never the plaintext *)
  role : UserRole;
  refreshToken : option string;   (* bcrypt digest of the live refresh token, or null *)
  isActive : bool
}.

(** [const { password: _, refreshToken: __, ...userWithoutSensitiveData } = user]:
    what is left of a row once the two sensitive columns are dropped. *)
Record UserView : Type := mkUserView {
  view_id : string;
  view_email : string;
  view_role : UserRole;
  view_isActive : bool
}.

Definition userWithoutSensitiveData (user : User) : UserView :=
  mkUserView (id user) (email user) (role user) (isActive user).

Record RegisterDto : Type := mkRegisterDto {
  reg_email : string;
  reg_password : string;
  reg_role : option UserRole      (* [role?] *)
}.

Record LoginDto : Type := mkLoginDto {
  login_email : string;
  login_password : string
}.

Record Tokens : Type := mkTokens {
  accessToken : string;
  refreshTokenOf : string         (* the [refreshToken] field of the pair *)
}.

Record LoginResponse : Type := mkLoginResponse {
  login_tokens : Tokens;
  login_user : UserView
}.

(** The exceptions of the service and of the guards in front of it, and the
    store's own failure (a violated constraint). *)
Inductive Exception : Type :=
| ConflictException (message : string)
| UnauthorizedException (message : string)
| ForbiddenException (message : string)
| InternalServerErrorException (message : string)
| QueryFailedError (message : string).

(** The names the specification gives to the outcomes. *)
Definition DuplicateIdentity : Exception :=
  ConflictException "User with this email already exists".
Definition InvalidCredentials : Exception :=
  UnauthorizedException "Invalid credentials".
Definition InactiveAccount : Exception :=
  UnauthorizedException "Account is inactive".
Definition InvalidRefreshToken : Exception :=
  UnauthorizedException "Invalid refresh token".

(* ===================================================================== *)
(** ** The monad of the service: table state plus exceptions *)
(* ===================================================================== *)

Inductive Outcome (A : Type) : Type :=
| Resolved (value : A)
| Rejected (error : Exception).
Arguments Resolved {A} value.
Arguments Rejected {A} error.

(** The rows of the user table, oldest first. *)
Definition Table : Type := list User.

(** An [async] method: it runs against the table and leaves a table behind,
    also when it throws (writes made before the throw stay). *)
Definition Async (A : Type) : Type := Table -> Outcome A * Table.

Definition ret {A : Type} (a : A) : Async A := fun db => (Resolved a, db).

Definition throw {A : Type} (e : Exception) : Async A := fun db => (Rejected e, db).

Definition bind {A B : Type} (m : Async A) (k : A -> Async B) : Async B :=
  fun db =>
    match m db with
    | (Resolved a, db') => k a db'
    | (Rejected e, db') => (Rejected e, db')
    end.

(** [try { m } catch (error) { h error }] *)
Definition try_catch {A : Type} (m : Async A) (h : Exception -> Async A) : Async A :=
  fun db =>
    match m db with
    | (Resolved a, db') => (Resolved a, db')
    | (Rejected e, db') => h e db'
    end.

Declare Scope async_scope.
Delimit Scope async_scope with async.
Notation "x <- m ;; k" := (bind m (fun x => k))
  (at level 61, m at next level, right associativity) : async_scope.
Notation "m ;;; k" := (bind m (fun _ => k))
  (at level 61, right associativity) : async_scope.
Open Scope async_scope.

(* ===================================================================== *)
(** ** The repository ([Repository<User>]) *)
(* ===================================================================== *)

(** [findOne({ where })]: the first row that satisfies the condition. *)
Definition findOne (where_ : User -> bool) : Async (option User) :=
  fun db => (Resolved (find where_ db), db).

Definition where_email (e : string) (u : User) : bool := String.eqb (email u) e.
Definition where_id (i : string) (u : User) : bool := String.eqb (id u) i.
Definition where_id_active (i : string) (u : User) : bool :=
  String.eqb (id u) i && Bool.eqb (isActive u) true.

(** [update(id, { refreshToken })]: sets the column on every row with that
    id, and resolves whether or not a row was affected. *)
Definition set_refreshToken (h : option string) (u : User) : User :=
  mkUser (id u) (email u) (password u) (role u) h (isActive u).

Definition patch_refreshToken (i : string) (h : option string) (db : Table) : Table :=
  map (fun u => if where_id i u then set_refreshToken h u else u) db.

Definition update_refreshToken (i : string) (h : option string) : Async unit :=
  fun db => (Resolved tt, patch_refreshToken i h db).

(** [create({ email, password, role })]: an entity not yet stored.  The
    column defaults of the entity are filled in (a new principal is active
    and has no live session), the id is not. *)
Definition create (e p : string) (r : UserRole) : User :=
  mkUser "" e p r None true.

(** [save(user)]: inserts the row under the id the store generates for it
    and hands the stored entity back.  "Email uniqueness [is] enforced at the
    store": a second row with a stored email is refused. *)
Definition save (generatedId : string) (user : User) : Async User :=
  fun db =>
    if existsb (where_email (email user)) db
    then (Rejected (QueryFailedError "duplicate key value violates unique constraint"), db)
    else
      let stored := mkUser generatedId (email user) (password user) (role user)
                           (refreshToken user) (isActive user) in
      (Resolved stored, (db ++ [stored])%list).

(* ===================================================================== *)
(** ** Libraries and injected services *)
(* ===================================================================== *)

(** [import * as bcrypt from 'bcrypt']: [hash(data, salt)] and
    [compare(data, digest)].  The salt that [genSalt(10)] or [hash(data, 10)]
    draws is an explicit argument. *)
Class Bcrypt : Type := {
  bcrypt_hash : string -> string -> string;
  bcrypt_compare : string -> string -> bool
}.

(** The payload [generateTokens] signs. *)
Record JwtPayload : Type := mkJwtPayload {
  sub : string;
  payload_email : string;
  payload_role : UserRole
}.

(** What verification hands back: the payload and the two registered claims
    the library stamps at signing time, in whole seconds. *)
Record JwtClaims : Type := mkJwtClaims {
  claims_payload : JwtPayload;
  iat : nat;
  exp : nat
}.

Inductive VerifyResult : Type :=
| Verified (claims : JwtClaims)
| TokenExpired
| TokenMalformed.

(** [JwtService.signAsync(payload, { secret, expiresIn })], read at clock
    second [now], and the verification passport-jwt performs with
    [secretOrKey] and [ignoreExpiration: false]. *)
Class JwtService : Type := {
  signAsync : JwtPayload -> string -> nat -> nat -> string;
  verifyAsync : string -> string -> nat -> VerifyResult
}.

(** [ConfigService.get(...)] for the four keys the service reads; the two
    lifetimes are held in seconds. *)
Record ConfigService : Type := mkConfigService {
  JWT_SECRET : string;
  JWT_EXPIRATION : nat;
  JWT_REFRESH_SECRET : string;
  JWT_REFRESH_EXPIRATION : nat
}.

(** JavaScript's [!user.refreshToken] on a nullable string column: null and
    the empty string are both falsy. *)
Definition falsy (s : option string) : bool :=
  match s with
  | None => true
  | Some s => String.eqb s ""
  end.

(* ===================================================================== *)
(** ** AuthService *)
(* ===================================================================== *)

Section AuthService.

Context {bcrypt : Bcrypt} {jwtService : JwtService} (configService : ConfigService).

(** [generateTokens(user)]: both tokens are signed over one payload object,
    in the same turn. *)
Definition generateTokens (now : nat) (user : User) : Tokens :=
  let payload := mkJwtPayload (id user) (email user) (role user) in
  mkTokens
    (signAsync payload (JWT_SECRET configService) (JWT_EXPIRATION configService) now)
    (signAsync payload (JWT_REFRESH_SECRET configService)
               (JWT_REFRESH_EXPIRATION configService) now).

(** [register(registerDto)] *)
Definition register (salt generatedId : string) (registerDto : RegisterDto)
  : Async UserView :=
  existingUser <- findOne (where_email (reg_email registerDto)) ;;
  match existingUser with
  | Some _ => throw DuplicateIdentity
  | None =>
      let hashedPassword := bcrypt_hash (reg_password registerDto) salt in
      let user :=
        create (reg_email registerDto) hashedPassword
               (match reg_role registerDto with Some r => r | None => USER end) in
      try_catch
        (user <- save generatedId user ;;
         ret (userWithoutSensitiveData user))
        (fun _ => throw (InternalServerErrorException "Failed to register user"))
  end.

(** [login(loginDto)] *)
Definition login (now : nat) (salt : string) (loginDto : LoginDto)
  : Async LoginResponse :=
  user <- findOne (where_email (login_email loginDto)) ;;
  match user with
  | None => throw InvalidCredentials
  | Some user =>
      if negb (isActive user) then throw InactiveAccount
      else
        if negb (bcrypt_compare (login_password loginDto) (password user))
        then throw InvalidCredentials
        else
          let tokens := generateTokens now user in
          let hashedRefreshToken := bcrypt_hash (refreshTokenOf tokens) salt in
          update_refreshToken (id user) (Some hashedRefreshToken) ;;;
          ret (mkLoginResponse tokens (userWithoutSensitiveData user))
  end.

(** [refreshTokens(userId, refreshToken)] *)
Definition refreshTokens (now : nat) (salt : string) (userId presented : string)
  : Async Tokens :=
  user <- findOne (where_id userId) ;;
  match user with
  | None => throw InvalidRefreshToken
  | Some user =>
      if falsy (refreshToken user) then throw InvalidRefreshToken
      else
        let stored := match refreshToken user with Some h => h | None => "" end in
        if negb (bcrypt_compare presented stored) then throw InvalidRefreshToken
        else
          let tokens := generateTokens now user in
          let hashedRefreshToken := bcrypt_hash (refreshTokenOf tokens) salt in
          update_refreshToken (id user) (Some hashedRefreshToken) ;;;
          ret tokens
  end.

(** [logout(userId)] *)
Definition logout (userId : string) : Async string :=
  update_refreshToken userId None ;;;
  ret "Logged out successfully".

(* --------------------------------------------------------------------- *)
(** *** Strategies and guards *)

(** The 401 a passport guard answers with when no user comes out of the
    strategy (no token, bad signature, expired). *)
Definition Unauthenticated : Exception := UnauthorizedException "Unauthorized".

(** [JwtRefreshStrategy.validate(req, payload)] *)
Definition JwtRefreshStrategy_validate (payload : JwtPayload) : Async User :=
  user <- findOne (where_id_active (sub payload)) ;;
  match user with
  | None => throw InvalidRefreshToken
  | Some user =>
      if falsy (refreshToken user) then throw InvalidRefreshToken
      else ret user
  end.

(** Modelled from the spec: [JwtStrategy.validate(payload)] of
    jwt.strategy.ts, which is not among the sources.  Authentication
    "reloads the principal via Credential Store (to catch deactivation)";
    the unit test of the strategy fixes the query
    ([{ id: payload.sub, isActive: true }]) and the message. *)
Definition JwtStrategy_validate (payload : JwtPayload) : Async User :=
  user <- findOne (where_id_active (sub payload)) ;;
  match user with
  | None => throw (UnauthorizedException "User not found or inactive")
  | Some user => ret user
  end.

(** Modelled from the spec: the passport guard in front of a strategy
    (jwt-auth.guard.ts and jwt-refresh.guard.ts are not among the sources).
    Authentication is "token verification + re-fetch of the live principal"
    and rejects "before any handler logic runs": the token is extracted,
    verified against [secretOrKey] with expiry honoured, and only a verified
    payload reaches [validate]. *)
Definition passport_jwt (secretOrKey : string) (validate : JwtPayload -> Async User)
    (now : nat) (token : option string) : Async User :=
  match token with
  | None => throw Unauthenticated
  | Some token =>
      if String.eqb token "" then throw Unauthenticated
      else
        match verifyAsync token secretOrKey now with
        | Verified claims => validate (claims_payload claims)
        | TokenExpired | TokenMalformed => throw Unauthenticated
        end
  end.

(** [JwtRefreshGuard]: strategy 'jwt-refresh', token from the body field,
    [secretOrKey: configService.get('JWT_REFRESH_SECRET')]. *)
Definition JwtRefreshGuard (now : nat) (body_refreshToken : option string) : Async User :=
  passport_jwt (JWT_REFRESH_SECRET configService) JwtRefreshStrategy_validate
               now body_refreshToken.

(** [JwtAuthGuard]: strategy 'jwt', token from the bearer header, keyed with
    [JWT_SECRET]. *)
Definition JwtAuthGuard (now : nat) (bearer : option string) : Async User :=
  passport_jwt (JWT_SECRET configService) JwtStrategy_validate now bearer.

(** [AuthController.refresh]: [@UseGuards(JwtRefreshGuard)], then the
    service is called with the id of the user the guard attached and the
    token of the body. *)
Definition AuthController_refresh (now : nat) (salt : string)
    (body_refreshToken : option string) : Async Tokens :=
  user <- JwtRefreshGuard now body_refreshToken ;;
  refreshTokens now salt (id user)
                (match body_refreshToken with Some t => t | None => "" end).

(** [AuthController.logout]: [@UseGuards(JwtAuthGuard)], [@GetUser('id')]. *)
Definition AuthController_logout (now : nat) (bearer : option string) : Async string :=
  user <- JwtAuthGuard now bearer ;;
  logout (id user).

End AuthService.

(* ===================================================================== *)
(** ** The role guard and the guard chain of the protected routes *)
(* ===================================================================== *)

Inductive Verdict : Type := allow | deny.

Definition has_role (r : UserRole) (requiredRoles : list UserRole) : bool :=
  existsb (UserRole_eqb r) requiredRoles.

(** Modelled from the spec: [RolesGuard.canActivate] of roles.guard.ts, which
    is not among the sources (only its unit test is).  "Pure function:
    decide(requiredRoles: set, principalRole) -> allow|deny.  Rule: if
    requiredRoles is empty, allow.  Otherwise allow iff principalRole is in
    requiredRoles; deny otherwise."  A request without a user, or a user
    without a role, has no principal role ([None]). *)
Definition decide (requiredRoles : list UserRole) (principalRole : option UserRole)
  : Verdict :=
  match requiredRoles with
  | [] => allow
  | _ :: _ =>
      match principalRole with
      | Some r => if has_role r requiredRoles then allow else deny
      | None => deny
      end
  end.

(** The request as the guards see it: the bearer token of the Authorization
    header and the user an earlier guard attached. *)
Record Request : Type := mkRequest {
  req_bearer : option string;
  req_user : option User
}.

(** Modelled from the spec: the guard as wired on a route.  The roles come
    from the [@Roles(...)] metadata of the handler (absent metadata is the
    empty set), the principal from the request. *)
Definition RolesGuard_canActivate (metadata : option (list UserRole)) (req : Request)
  : bool :=
  match decide (match metadata with Some rs => rs | None => [] end)
               (option_map role (req_user req)) with
  | allow => true
  | deny => false
  end.

Inductive GuardName : Type := JwtAuthGuard_name | RolesGuard_name.

Definition GuardName_eqb (a b : GuardName) : bool :=
  match a, b with
  | JwtAuthGuard_name, JwtAuthGuard_name | RolesGuard_name, RolesGuard_name => true
  | _, _ => false
  end.

(** A guard either lets the (possibly enriched) request through or throws. *)
Definition Guard : Type := Request -> Async Request.

(** Guards run in declaration order, controller level first; the first one
    that throws ends the chain.  The log names the guards that were run. *)
Fixpoint run_guards (guards : list (GuardName * Guard)) (req : Request) (db : Table)
  : list GuardName * (Outcome Request * Table) :=
  match guards with
  | [] => ([], (Resolved req, db))
  | (name, g) :: rest =>
      match g req db with
      | (Resolved req', db') =>
          let (log, r) := run_guards rest req' db' in (name :: log, r)
      | (Rejected e, db') => ([name], (Rejected e, db'))
      end
  end.

(** The four routes of [UsersController] and their [@Roles] metadata. *)
Inductive Route : Type := profile | all | admin_dashboard | user_dashboard.

Definition Roles (route : Route) : option (list UserRole) :=
  match route with
  | all => Some [ADMIN]
  | admin_dashboard => Some [ADMIN; MODERATOR]
  | profile | user_dashboard => None
  end.

Section UsersController.

Context {jwtService : JwtService} (configService : ConfigService).

Definition JwtAuthGuard_guard (now : nat) : Guard :=
  fun req =>
    user <- JwtAuthGuard configService now (req_bearer req) ;;
    ret (mkRequest (req_bearer req) (Some user)).

Definition RolesGuard_guard (metadata : option (list UserRole)) : Guard :=
  fun req =>
    if RolesGuard_canActivate metadata req then ret req
    else throw (ForbiddenException "Forbidden resource").

(** [@UseGuards(JwtAuthGuard)] on the controller, [@UseGuards(RolesGuard)] on
    the two role-protected handlers. *)
Definition UsersController_guards (now : nat) (route : Route)
  : list (GuardName * Guard) :=
  match route with
  | all | admin_dashboard =>
      [(JwtAuthGuard_name, JwtAuthGuard_guard now);
       (RolesGuard_name, RolesGuard_guard (Roles route))]
  | profile | user_dashboard =>
      [(JwtAuthGuard_name, JwtAuthGuard_guard now)]
  end.

Definition UsersController_request (now : nat) (route : Route) (bearer : option string)
    (db : Table) : list GuardName * (Outcome Request * Table) :=
  run_guards (UsersController_guards now route) (mkRequest bearer None) db.

End UsersController.

(* ===================================================================== *)
(** ** [refreshTokens] one await at a time *)
(* ===================================================================== *)

(** The operation a call of [refreshTokens] is suspended on.  Between two
    awaits the code runs without interruption; at an await another request
    may run. *)
Inductive RefreshPc : Type :=
| await_findOne
| await_compare (user : User)
| await_signAsync (user : User)
| await_hash (user : User) (tokens : Tokens)
| await_update (user : User) (tokens : Tokens) (hashedRefreshToken : string)
| settled (outcome : Outcome Tokens).

(** One call in flight: its arguments, the clock second and the salt it will
    draw, and where it stands. *)
Record RefreshCall : Type := mkRefreshCall {
  call_userId : string;
  call_presented : string;
  call_now : nat;
  call_salt : string;
  call_pc : RefreshPc
}.

Definition at_pc (c : RefreshCall) (pc : RefreshPc) : RefreshCall :=
  mkRefreshCall (call_userId c) (call_presented c) (call_now c) (call_salt c) pc.

Definition start_refresh (now : nat) (salt userId presented : string) : RefreshCall :=
  mkRefreshCall userId presented now salt await_findOne.

Section RefreshSteps.

Context {bcrypt : Bcrypt} {jwtService : JwtService} (configService : ConfigService).

(** The awaited operation completes and the call runs on to its next await. *)
Definition refresh_step (c : RefreshCall) (db : Table) : RefreshCall * Table :=
  match call_pc c with
  | await_findOne =>
      match find (where_id (call_userId c)) db with
      | None => (at_pc c (settled (Rejected InvalidRefreshToken)), db)
      | Some user =>
          if falsy (refreshToken user)
          then (at_pc c (settled (Rejected InvalidRefreshToken)), db)
          else (at_pc c (await_compare user), db)
      end
  | await_compare user =>
      let stored := match refreshToken user with Some h => h | None => "" end in
      if negb (bcrypt_compare (call_presented c) stored)
      then (at_pc c (settled (Rejected InvalidRefreshToken)), db)
      else (at_pc c (await_signAsync user), db)
  | await_signAsync user =>
      (at_pc c (await_hash user (generateTokens configService (call_now c) user)), db)
  | await_hash user tokens =>
      (at_pc c (await_update user tokens
                             (bcrypt_hash (refreshTokenOf tokens) (call_salt c))), db)
  | await_update user tokens hashedRefreshToken =>
      (at_pc c (settled (Resolved tokens)),
       patch_refreshToken (id user) (Some hashedRefreshToken) db)
  | settled _ => (c, db)
  end.

Fixpoint refresh_steps (n : nat) (c : RefreshCall) (db : Table) : RefreshCall * Table :=
  match n with
  | O => (c, db)
  | S n' => let (c', db') := refresh_step c db in refresh_steps n' c' db'
  end.

(** Two calls in flight against one table. *)
Inductive Turn : Type := first | second.

Record Race : Type := mkRace {
  race_first : RefreshCall;
  race_second : RefreshCall;
  race_db : Table
}.

Definition race_step (t : Turn) (r : Race) : Race :=
  match t with
  | first =>
      let (c, db) := refresh_step (race_first r) (race_db r) in
      mkRace c (race_second r) db
  | second =>
      let (c, db) := refresh_step (race_second r) (race_db r) in
      mkRace (race_first r) c db
  end.

Definition run_race (schedule : list Turn) (r : Race) : Race :=
  fold_left (fun r t => race_step t r) schedule r.

End RefreshSteps.

Definition count_turn (t : Turn) (schedule : list Turn) : nat :=
  length (filter (fun t' => match t, t' with
                            | first, first | second, second => true
                            | _, _ => false
                            end) schedule).

(** The stored refresh hash of the principal with the given id. *)
Definition stored_hash (userId : string) (db : Table) : option string :=
  match find (where_id userId) db with
  | Some u => refreshToken u
  | None => None
  end.

(* ===================================================================== *)
(** ** A call that has read the principal, by the awaits it has left *)
(* ===================================================================== *)

Section AfterTheRead.

Context {bcrypt : Bcrypt} {jwtService : JwtService} (configService : ConfigService).

(** The pair a call signs for the row it read, and the hash it then writes. *)
Definition tokens_of (user : User) (c : RefreshCall) : Tokens :=
  generateTokens configService (call_now c) user.

Definition hashed_of (user : User) (c : RefreshCall) : string :=
  bcrypt_hash (refreshTokenOf (tokens_of user c)) (call_salt c).

(** Where a call stands that read [user], found the presented token to be
    the stored one, and has [left] awaits ahead of it (at most four). *)
Definition on_track (user : User) (c : RefreshCall) (left : nat) : RefreshCall :=
  at_pc c
    match left with
    | 0 => settled (Resolved (tokens_of user c))
    | 1 => await_update user (tokens_of user c) (hashed_of user c)
    | 2 => await_hash user (tokens_of user c)
    | 3 => await_signAsync user
    | _ => await_compare user
    end.

(** The table once the calls named by [writer] have written: only the last
    write shows. *)
Definition table_after (db : Table) (user : User) (a b : RefreshCall)
    (writer : option Turn) : Table :=
  match writer with
  | None => db
  | Some first => patch_refreshToken (id user) (Some (hashed_of user a)) db
  | Some second => patch_refreshToken (id user) (Some (hashed_of user b)) db
  end.

End AfterTheRead.

(** The call whose update runs last under a schedule, when the first call
    has [a] awaits left and the second [b]; [writer] is the last one so far. *)
Fixpoint last_update (schedule : list Turn) (a b : nat) (writer : option Turn)
  : option Turn :=
  match schedule with
  | [] => writer
  | first :: rest =>
      match a with
      | 0 => last_update rest 0 b writer
      | 1 => last_update rest 0 b (Some first)
      | S a' => last_update rest a' b writer
      end
  | second :: rest =>
      match b with
      | 0 => last_update rest a 0 writer
      | 1 => last_update rest a 0 (Some second)
      | S b' => last_update rest a b' writer
      end
  end.

(* ===================================================================== *)
(** ** Histories of service calls *)
(* ===================================================================== *)

Inductive Operation : Type :=
| do_register (salt generatedId : string) (registerDto : RegisterDto)
| do_login (now : nat) (salt : string) (loginDto : LoginDto)
| do_refresh (now : nat) (salt userId presented : string)
| do_logout (userId : string).

Section Histories.

Context {bcrypt : Bcrypt} {jwtService : JwtService} (configService : ConfigService).

(** The table a call leaves behind, whether it resolves or throws. *)
Definition perform (db : Table) (op : Operation) : Table :=
  match op with
  | do_register salt generatedId registerDto =>
      snd (register salt generatedId registerDto db)
  | do_login now salt loginDto => snd (login configService now salt loginDto db)
  | do_refresh now salt userId presented =>
      snd (refreshTokens configService now salt userId presented db)
  | do_logout userId => snd (logout userId db)
  end.

Definition perform_all (history : list Operation) (db : Table) : Table :=
  fold_left perform history db.

End Histories.

(* ===================================================================== *)
(** ** A reference instance of the collaborators

    Digests and tokens are transparent here: a digest carries its salt and
    the hashed text, a token carries its claims and the key that sealed it.
    The instance satisfies the contracts the theorems assume, which shows
    them satisfiable, and the scenarios below are evaluated on it. *)
(* ===================================================================== *)

Fixpoint enc_nat (n : nat) : string :=
  match n with
  | O => "0"
  | S n' => String "1" (enc_nat n')
  end.

Fixpoint dec_nat (s : string) : option (nat * string) :=
  match s with
  | EmptyString => None
  | String c rest =>
      if Ascii.eqb c "0" then Some (O, rest)
      else if Ascii.eqb c "1" then
        match dec_nat rest with
        | Some (n, rest') => Some (S n, rest')
        | None => None
        end
      else None
  end.

Fixpoint split_at (n : nat) (s : string) : option (string * string) :=
  match n with
  | O => Some ("", s)
  | S n' =>
      match s with
      | EmptyString => None
      | String c rest =>
          match split_at n' rest with
          | Some (front, back) => Some (String c front, back)
          | None => None
          end
      end
  end.

Definition enc_str (s : string) : string := enc_nat (String.length s) ++ s.

Definition dec_str (s : string) : option (string * string) :=
  match dec_nat s with
  | Some (n, rest) => split_at n rest
  | None => None
  end.

Definition enc_role (r : UserRole) : string :=
  enc_nat (match r with USER => 0 | ADMIN => 1 | MODERATOR => 2 end).

Definition dec_role (s : string) : option (UserRole * string) :=
  match dec_nat s with
  | Some (0, rest) => Some (USER, rest)
  | Some (1, rest) => Some (ADMIN, rest)
  | Some (2, rest) => Some (MODERATOR, rest)
  | _ => None
  end.

Definition plain_hash (data salt : string) : string := enc_str salt ++ data.

Definition plain_compare (data digest : string) : bool :=
  match dec_str digest with
  | Some (_, hashed) => String.eqb hashed data
  | None => false
  end.

Definition plain_sign (p : JwtPayload) (secret : string) (expiresIn now : nat) : string :=
  enc_str secret ++ enc_str (sub p) ++ enc_str (payload_email p)
    ++ enc_role (payload_role p) ++ enc_nat now ++ enc_nat (now + expiresIn).

Definition plain_verify (token secret : string) (now : nat) : VerifyResult :=
  match dec_str token with
  | Some (key, r1) =>
    match dec_str r1 with
    | Some (s, r2) =>
      match dec_str r2 with
      | Some (e, r3) =>
        match dec_role r3 with
        | Some (r, r4) =>
          match dec_nat r4 with
          | Some (issued, r5) =>
            match dec_nat r5 with
            | Some (expires, r6) =>
                if negb (String.eqb r6 "") then TokenMalformed
                else if negb (String.eqb key secret) then TokenMalformed
                else if Nat.leb expires now then TokenExpired
                else Verified (mkJwtClaims (mkJwtPayload s e r) issued expires)
            | None => TokenMalformed
            end
          | None => TokenMalformed
          end
        | None => TokenMalformed
        end
      | None => TokenMalformed
      end
    | None => TokenMalformed
    end
  | None => TokenMalformed
  end.

Definition plainBcrypt : Bcrypt :=
  {| bcrypt_hash := plain_hash; bcrypt_compare := plain_compare |}.

Definition plainJwt : JwtService :=
  {| signAsync := plain_sign; verifyAsync := plain_verify |}.

(** The configuration of the unit tests, with lifetimes of 15 and 60 seconds. *)
Definition testConfig : ConfigService :=
  mkConfigService "test-secret" 15 "test-refresh-secret" 60.

(** A configuration that reuses one secret and one lifetime for both kinds. *)
Definition sharedSecretConfig : ConfigService :=
  mkConfigService "test-secret" 15 "test-secret" 15.

(* ===================================================================== *)
(** ** Contracts of the collaborators *)
(* ===================================================================== *)

(** bcrypt: a digest verifies the text it was computed from, ... *)
Definition bcrypt_accepts_own (B : Bcrypt) : Prop :=
  forall data salt, bcrypt_compare data (bcrypt_hash data salt) = true.

(** ... and, since bcrypt reads no more than the first 72 bytes of its
    input, every text that agrees with it on those bytes; ... *)
Definition bcrypt_reads_72_bytes (B : Bcrypt) : Prop :=
  forall data data' salt,
    substring 0 72 data = substring 0 72 data' ->
    bcrypt_compare data (bcrypt_hash data' salt) = true.

(** ... and a malformed (here: empty) digest verifies nothing. *)
Definition bcrypt_rejects_empty_digest (B : Bcrypt) : Prop :=
  forall data, bcrypt_compare data "" = false.

(** Token Codec: before its expiry a token verifies, under the secret that
    signed it, to the claims it was issued with; ... *)
Definition jwt_verifies_own (J : JwtService) : Prop :=
  forall p secret expiresIn issued now,
    now < issued + expiresIn ->
    verifyAsync (signAsync p secret expiresIn issued) secret now
    = Verified (mkJwtClaims p issued (issued + expiresIn)).

(** ... from its expiry on it is refused as expired; ... *)
Definition jwt_expires (J : JwtService) : Prop :=
  forall p secret expiresIn issued now,
    issued + expiresIn <= now ->
    verifyAsync (signAsync p secret expiresIn issued) secret now = TokenExpired.

(** ... and under any other secret it is refused as malformed. *)
Definition jwt_key_separation (J : JwtService) : Prop :=
  forall p secret secret' expiresIn issued now,
    secret <> secret' ->
    verifyAsync (signAsync p secret expiresIn issued) secret' now = TokenMalformed.

(** The account behind a subject id has been deactivated: no row with that
    id is active. *)
Definition deactivated (db : Table) (subject : string) : Prop :=
  forall u, In u db -> id u = subject -> isActive u = false.

Definition is_resolved {A : Type} (o : Outcome A) : bool :=
  match o with Resolved _ => true | Rejected _ => false end.

Definition is_settled (pc : RefreshPc) : bool :=
  match pc with settled _ => true | _ => false end.

(* ===================================================================== *)
(** ** Scenarios on the reference instance *)
(* ===================================================================== *)

Module Scenario.

#[local] Existing Instances plainBcrypt plainJwt.

(** One registered principal ... *)
Definition registered : Table :=
  snd (register "s1" "u1" (mkRegisterDto "test@example.com" "Password123" None) []).

(** ... who logs in at clock second 3. *)
Definition logged_in : Outcome LoginResponse * Table :=
  login testConfig 3 "s2" (mkLoginDto "test@example.com" "Password123") registered.

(** The refresh token that login returned. *)
Definition issued_refreshToken : string :=
  match fst logged_in with
  | Resolved r => refreshTokenOf (login_tokens r)
  | Rejected _ => ""
  end.

(** The access token of the same pair. *)
Definition issued_accessToken : string :=
  match fst logged_in with
  | Resolved r => accessToken (login_tokens r)
  | Rejected _ => ""
  end.

(** The same principal after an administrator switched the account off:
    the stored refresh hash is still there. *)
Definition switched_off : Table :=
  map (fun u => mkUser (id u) (email u) (password u) (role u) (refreshToken u) false)
      (snd logged_in).

(** Two refresh calls presenting the token of the login, one reading the
    clock at second 4 and one at second 5. *)
Definition two_calls : Race :=
  mkRace (start_refresh 4 "s3" "u1" issued_refreshToken)
         (start_refresh 5 "s4" "u1" issued_refreshToken)
         (snd logged_in).

(** Both calls look the principal up before either writes. *)
Definition interleaved : list Turn :=
  [first; second; first; first; first; first; second; second; second; second].

End Scenario.

(* ===================================================================== *)
(** ** A statement of the specification, as it words it *)
(* ===================================================================== *)

(** "Of two calls racing with the same valid token exactly one succeeds, the
    other fails InvalidRefreshToken, and the stored hash is the hash of the
    winner's new refresh token", whatever the order in which their awaits
    complete. *)
Definition race_as_specified {B : Bcrypt} {J : JwtService} (cfg : ConfigService)
  : Prop :=
  forall (r : Race) (schedule : list Turn) userId presented user,
    call_userId (race_first r) = userId ->
    call_userId (race_second r) = userId ->
    call_presented (race_first r) = presented ->
    call_presented (race_second r) = presented ->
    call_pc (race_first r) = await_findOne ->
    call_pc (race_second r) = await_findOne ->
    find (where_id userId) (race_db r) = Some user ->
    (exists h, refreshToken user = Some h /\ bcrypt_compare presented h = true) ->
    5 <= count_turn first schedule ->
    5 <= count_turn second schedule ->
    let r' := run_race cfg schedule r in
    exists winner loser tokens,
      ((winner = race_first r' /\ loser = race_second r') \/
       (winner = race_second r' /\ loser = race_first r')) /\
      call_pc winner = settled (Resolved tokens) /\
      call_pc loser = settled (Rejected InvalidRefreshToken) /\
      stored_hash userId (race_db r')
      = Some (bcrypt_hash (refreshTokenOf tokens) (call_salt winner)).


(* ===================================================================== *)
(** ** Further notions used by the properties of the service as a whole *)
(* ===================================================================== *)

(** Token Codec: a signed token is never the empty string. *)
Definition jwt_tokens_nonempty (J : JwtService) : Prop :=
  forall p secret expiresIn issued, signAsync p secret expiresIn issued <> "".

(** A row with its session column blanked: what is left is the account
    (id, email, password hash, role, active flag). *)
Definition account (u : User) : User := set_refreshToken None u.

(** Every stored refresh hash is the hash of a refresh token, signed with
    the refresh secret and lifetime, whose subject is the id of the row that
    holds it. *)
Definition hashes_name_their_row {B : Bcrypt} {J : JwtService} (cfg : ConfigService)
    (db : Table) : Prop :=
  forall u, In u db ->
    refreshToken u = None
    \/ exists p t salt,
         sub p = id u
         /\ refreshToken u
            = Some (bcrypt_hash
                      (signAsync p (JWT_REFRESH_SECRET cfg)
                                 (JWT_REFRESH_EXPIRATION cfg) t) salt).


(** [register] from its second await on: what the method does with the
    result of its lookup once the lookup has completed, on the table as it
    is by then. *)
Definition register_after_lookup {B : Bcrypt} (existingUser : option User)
    (salt generatedId : string) (registerDto : RegisterDto) : Async UserView :=
  match existingUser with
  | Some _ => throw DuplicateIdentity
  | None =>
      let hashedPassword := bcrypt_hash (reg_password registerDto) salt in
      let user :=
        create (reg_email registerDto) hashedPassword
               (match reg_role registerDto with Some r => r | None => USER end) in
      try_catch
        (user <- save generatedId user ;;
         ret (userWithoutSensitiveData user))
        (fun _ => throw (InternalServerErrorException "Failed to register user"))
  end.


(** Token Codec: the compact serialization of a token starts with the
    header and the beginning of the payload, and the library appends the
    times it stamps ([iat], [exp]) after the payload it is given; the first
    72 bytes of a token therefore do not depend on the second it is signed
    at. *)
Definition jwt_shared_prefix (J : JwtService) : Prop :=
  forall p secret expiresIn t t',
    substring 0 72 (signAsync p secret expiresIn t)
    = substring 0 72 (signAsync p secret expiresIn t').

(* ===================================================================== *)
(** ** A second reference instance: truncating digests, framed tokens

    As the first one, except that a digest carries only the first 72
    characters of the hashed text, as bcrypt does, and that a token starts
    with a fixed header of 72 characters.  It meets every contract of this
    file. *)
(* ===================================================================== *)

Definition trunc_hash (data salt : string) : string :=
  enc_str salt ++ substring 0 72 data.

Definition trunc_compare (data digest : string) : bool :=
  match dec_str digest with
  | Some (_, hashed) => String.eqb hashed (substring 0 72 data)
  | None => false
  end.

Definition frame : string :=
  "eyJhbGciOiJIUzI1NiIsInR5cCI6IkpXVCJ9.eyJpc3MiOiJyZWZlcmVuY2UtaW5zdGFuY2U".

Fixpoint strip_prefix (pre s : string) : option string :=
  match pre with
  | EmptyString => Some s
  | String c pre' =>
      match s with
      | EmptyString => None
      | String d s' => if Ascii.eqb c d then strip_prefix pre' s' else None
      end
  end.

Definition framed_sign (p : JwtPayload) (secret : string) (expiresIn now : nat) : string :=
  frame ++ plain_sign p secret expiresIn now.

Definition framed_verify (token secret : string) (now : nat) : VerifyResult :=
  match strip_prefix frame token with
  | Some rest => plain_verify rest secret now
  | None => TokenMalformed
  end.

Definition truncatingBcrypt : Bcrypt :=
  {| bcrypt_hash := trunc_hash; bcrypt_compare := trunc_compare |}.

Definition framedJwt : JwtService :=
  {| signAsync := framed_sign; verifyAsync := framed_verify |}.

Module Scenario72.

#[local] Existing Instances truncatingBcrypt framedJwt.

(** The principal of the first scenario, registered ... *)
Definition registered : Table :=
  snd (register "s1" "u1" (mkRegisterDto "test@example.com" "Password123" None) []).

(** ... and logged in at clock second 3. *)
Definition logged_in : Outcome LoginResponse * Table :=
  login testConfig 3 "s2" (mkLoginDto "test@example.com" "Password123") registered.

Definition row : User :=
  mkUser "u1" "test@example.com" (trunc_hash "Password123" "s1") USER None true.

(** The refresh token that login returned. *)
Definition issued_refreshToken : string :=
  refreshTokenOf (generateTokens testConfig 3 row).

(** A password of 73 characters, and another one that differs from it in
    the last character only. *)
Definition long_password : string :=
  "aaaaaaaaaaaaaaaaaaaaaaaaaaaaaaaaaaaaaaaaaaaaaaaaaaaaaaaaaaaaaaaaaaaaaaaaX".

Definition long_password' : string :=
  "aaaaaaaaaaaaaaaaaaaaaaaaaaaaaaaaaaaaaaaaaaaaaaaaaaaaaaaaaaaaaaaaaaaaaaaaY".

End Scenario72.

(* ===================================================================== *)
(** ** Schedules in which both calls read before either writes *)
(* ===================================================================== *)

(** With [a] and [b] awaits left to the two calls (five at the start, the
    first being the lookup and the last the update): whenever a call runs
    its update, the other one has completed its lookup. *)
Fixpoint reads_before_writes (schedule : list Turn) (a b : nat) : bool :=
  match schedule with
  | [] => true
  | first :: rest =>
      match a with
      | 0 => reads_before_writes rest 0 b
      | 1 => Nat.leb b 4 && reads_before_writes rest 0 b
      | S a' => reads_before_writes rest a' b
      end
  | second :: rest =>
      match b with
      | 0 => reads_before_writes rest a 0
      | 1 => Nat.leb a 4 && reads_before_writes rest a 0
      | S b' => reads_before_writes rest a b'
      end
  end.

Section Standing.

Context {bcrypt : Bcrypt} {jwtService : JwtService} (configService : ConfigService).

(** Where a call stands with [left] awaits ahead of it, the lookup
    included: not yet started at five, on track below. *)
Definition standing (user : User) (c : RefreshCall) (left : nat) : RefreshCall :=
  match left with
  | 5 => at_pc c await_findOne
  | _ => on_track configService user c left
  end.

End Standing.


(* ===================================================================== *)
(** ** The repository: lookups after an update *)
(* ===================================================================== *)

Ltac run_async :=
  unfold register, login, refreshTokens, logout, AuthController_refresh,
    AuthController_logout, JwtRefreshGuard, JwtAuthGuard, passport_jwt,
    JwtRefreshStrategy_validate, JwtStrategy_validate,
    try_catch, bind, findOne, save, update_refreshToken, throw, ret in *.

Lemma find_map_stable (p : User -> bool) (f : User -> User) (db : Table) :
  (forall u, p (f u) = p u) ->
  find p (map f db) = option_map f (find p db).
Proof.
  intros Hp. induction db as [|u db IH]; simpl.
  - reflexivity.
  - rewrite Hp. destruct (p u); [reflexivity | exact IH].
Qed.

Lemma where_id_patch i j h u :
  where_id j (if where_id i u then set_refreshToken h u else u) = where_id j u.
Proof. destruct (where_id i u); reflexivity. Qed.

Lemma where_id_active_patch i j h u :
  where_id_active j (if where_id i u then set_refreshToken h u else u)
  = where_id_active j u.
Proof. destruct (where_id i u); reflexivity. Qed.

Lemma where_email_patch i e h u :
  where_email e (if where_id i u then set_refreshToken h u else u) = where_email e u.
Proof. destruct (where_id i u); reflexivity. Qed.

Lemma find_id_patch i h db :
  find (where_id i) (patch_refreshToken i h db)
  = option_map (set_refreshToken h) (find (where_id i) db).
Proof.
  unfold patch_refreshToken.
  rewrite find_map_stable by (intro; apply where_id_patch).
  destruct (find (where_id i) db) as [u|] eqn:E; simpl; [|reflexivity].
  apply find_some in E. destruct E as [_ E]. now rewrite E.
Qed.

Lemma find_id_active_patch i h db :
  find (where_id_active i) (patch_refreshToken i h db)
  = option_map (set_refreshToken h) (find (where_id_active i) db).
Proof.
  unfold patch_refreshToken.
  rewrite find_map_stable by (intro; apply where_id_active_patch).
  destruct (find (where_id_active i) db) as [u|] eqn:E; simpl; [|reflexivity].
  apply find_some in E. destruct E as [_ E].
  unfold where_id_active in E. apply andb_prop in E. destruct E as [E _].
  unfold where_id. now rewrite E.
Qed.

Lemma patch_patch i h1 h2 db :
  patch_refreshToken i h2 (patch_refreshToken i h1 db) = patch_refreshToken i h2 db.
Proof.
  unfold patch_refreshToken. rewrite map_map. apply map_ext. intro u.
  destruct (where_id i u) eqn:E.
  - unfold where_id in *. simpl. now rewrite E.
  - now rewrite E.
Qed.

Lemma stored_hash_patch i h db u :
  find (where_id i) db = Some u ->
  stored_hash i (patch_refreshToken i h db) = h.
Proof.
  intro E. unfold stored_hash. now rewrite find_id_patch, E.
Qed.

Lemma find_deactivated db subject :
  deactivated db subject -> find (where_id_active subject) db = None.
Proof.
  intro H. destruct (find (where_id_active subject) db) as [u|] eqn:E; [|reflexivity].
  apply find_some in E. destruct E as [Hin E].
  unfold where_id_active in E. apply andb_prop in E. destruct E as [E1 E2].
  apply String.eqb_eq in E1. rewrite (H u Hin E1) in E2. discriminate.
Qed.

Lemma hash_not_empty {B : Bcrypt} data salt :
  bcrypt_accepts_own B -> bcrypt_rejects_empty_digest B ->
  falsy (Some (bcrypt_hash data salt)) = false.
Proof.
  intros Hown Hempty. simpl.
  destruct (String.eqb (bcrypt_hash data salt) "") eqn:E; [|reflexivity].
  apply String.eqb_eq in E. specialize (Hown data salt). rewrite E, Hempty in Hown.
  discriminate.
Qed.

(* ===================================================================== *)
(** ** The reference instance meets the contracts *)
(* ===================================================================== *)

Lemma append_assoc' (a b c : string) : ((a ++ b) ++ c = a ++ (b ++ c))%string.
Proof. induction a as [|x a IH]; simpl; [reflexivity | now rewrite IH]. Qed.

Lemma dec_nat_enc (n : nat) (rest : string) :
  dec_nat (enc_nat n ++ rest) = Some (n, rest).
Proof.
  induction n as [|n IH]; simpl.
  - reflexivity.
  - now rewrite IH.
Qed.

Lemma split_at_append (s rest : string) :
  split_at (String.length s) (s ++ rest) = Some (s, rest).
Proof.
  induction s as [|c s IH]; simpl.
  - reflexivity.
  - now rewrite IH.
Qed.

Lemma dec_str_enc (s rest : string) :
  dec_str (enc_str s ++ rest) = Some (s, rest).
Proof.
  unfold dec_str, enc_str.
  rewrite append_assoc', dec_nat_enc. apply split_at_append.
Qed.

Lemma dec_role_enc (r : UserRole) (rest : string) :
  dec_role (enc_role r ++ rest) = Some (r, rest).
Proof. destruct r; reflexivity. Qed.

Lemma plain_verify_sign p secret secret' expiresIn issued now :
  plain_verify (plain_sign p secret expiresIn issued) secret' now
  = if negb (String.eqb secret secret') then TokenMalformed
    else if Nat.leb (issued + expiresIn) now then TokenExpired
    else Verified (mkJwtClaims p issued (issued + expiresIn)).
Proof.
  unfold plain_verify, plain_sign.
  rewrite dec_str_enc, dec_str_enc, dec_str_enc, dec_role_enc, dec_nat_enc.
  replace (enc_nat (issued + expiresIn)) with (enc_nat (issued + expiresIn) ++ "")%string.
  - rewrite dec_nat_enc. simpl. destruct p; reflexivity.
  - induction (enc_nat (issued + expiresIn)) as [|c s IH]; simpl;
      [reflexivity | now rewrite IH].
Qed.

Lemma plain_accepts_own : bcrypt_accepts_own plainBcrypt.
Proof.
  intros data salt. simpl. unfold plain_compare, plain_hash.
  rewrite dec_str_enc. apply String.eqb_refl.
Qed.

Lemma plain_rejects_empty_digest : bcrypt_rejects_empty_digest plainBcrypt.
Proof. intro data. reflexivity. Qed.

Lemma plain_verifies_own : jwt_verifies_own plainJwt.
Proof.
  intros p secret expiresIn issued now H. simpl.
  rewrite plain_verify_sign, String.eqb_refl. simpl.
  destruct (Nat.leb_spec (issued + expiresIn) now); [lia | reflexivity].
Qed.

Lemma plain_expires : jwt_expires plainJwt.
Proof.
  intros p secret expiresIn issued now H. simpl.
  rewrite plain_verify_sign, String.eqb_refl. simpl.
  destruct (Nat.leb_spec (issued + expiresIn) now); [reflexivity | lia].
Qed.

Lemma plain_key_separation : jwt_key_separation plainJwt.
Proof.
  intros p secret secret' expiresIn issued now H. simpl.
  rewrite plain_verify_sign.
  apply String.eqb_neq in H. now rewrite H.
Qed.

(* ===================================================================== *)
(** ** Refresh-token rotation *)
(* ===================================================================== *)

(** Tokens signed under one secret and lifetime at different clock seconds,
    or over different payloads, are different strings. *)
Lemma signAsync_injective {J : JwtService} p p' secret expiresIn issued issued' :
  jwt_verifies_own J ->
  0 < expiresIn ->
  signAsync p secret expiresIn issued = signAsync p' secret expiresIn issued' ->
  p = p' /\ issued = issued'.
Proof.
  intros Hown Hpos Heq.
  assert (H1 := Hown p secret expiresIn issued (Nat.min issued issued')).
  assert (H2 := Hown p' secret expiresIn issued' (Nat.min issued issued')).
  rewrite Heq in H1. rewrite H2 in H1 by lia.
  assert (Nat.min issued issued' < issued + expiresIn) as Hlt by lia.
  specialize (H1 Hlt). injection H1 as -> ->. split; reflexivity.
Qed.

(** Within one clock second the service signs the same refresh token again:
    nothing but the clock distinguishes two tokens of one principal. *)
Lemma refresh_same_second_returns_presented {B : Bcrypt} {J : JwtService}
    (cfg : ConfigService) db userId user salt0 now salt :
  bcrypt_accepts_own B -> bcrypt_rejects_empty_digest B ->
  find (where_id userId) db = Some user ->
  refreshToken user
  = Some (bcrypt_hash (refreshTokenOf (generateTokens cfg now user)) salt0) ->
  exists db',
    refreshTokens cfg now salt userId (refreshTokenOf (generateTokens cfg now user)) db
    = (Resolved (generateTokens cfg now user), db').
Proof.
  intros Hown Hempty Hfind Hstored. run_async. rewrite Hfind, Hstored.
  rewrite (hash_not_empty _ _ Hown Hempty), Hown. simpl. eauto.
Qed.

(* ===================================================================== *)
(** ** Refresh failures and logout *)
(* ===================================================================== *)

Lemma logout_patches userId db :
  logout userId db = (Resolved "Logged out successfully", patch_refreshToken userId None db).
Proof. reflexivity. Qed.

Lemma refresh_after_patch_none {B : Bcrypt} {J : JwtService} (cfg : ConfigService)
    now salt userId presented db :
  refreshTokens cfg now salt userId presented (patch_refreshToken userId None db)
  = (Rejected InvalidRefreshToken, patch_refreshToken userId None db).
Proof.
  run_async. rewrite find_id_patch.
  destruct (find (where_id userId) db); reflexivity.
Qed.

(** What the service refuses, the route refuses: the guard hands the
    service the id that the token names. *)
Lemma route_refuses_what_service_refuses {B : Bcrypt} {J : JwtService}
    (cfg : ConfigService) now salt userId token db :
  (forall claims,
     verifyAsync token (JWT_REFRESH_SECRET cfg) now = Verified claims ->
     sub (claims_payload claims) = userId) ->
  refreshTokens cfg now salt userId token db = (Rejected InvalidRefreshToken, db) ->
  exists e,
    AuthController_refresh cfg now salt (Some token) db = (Rejected e, db)
    /\ (e = InvalidRefreshToken \/ e = Unauthenticated).
Proof.
  intros Hsub Hservice.
  unfold AuthController_refresh, JwtRefreshGuard, passport_jwt,
    JwtRefreshStrategy_validate, bind, findOne, throw, ret.
  destruct (String.eqb token ""); [eauto|].
  destruct (verifyAsync token (JWT_REFRESH_SECRET cfg) now) as [claims| |] eqn:Hv;
    [|eauto|eauto].
  rewrite (Hsub claims eq_refl).
  destruct (find (where_id_active userId) db) as [u|] eqn:Hfind; [|eauto].
  destruct (falsy (refreshToken u)); [eauto|].
  apply find_some in Hfind. destruct Hfind as [_ Hid].
  unfold where_id_active in Hid. apply andb_prop in Hid. destruct Hid as [Hid _].
  apply String.eqb_eq in Hid. rewrite Hid, Hservice. eauto.
Qed.

(** C4.  [refreshTokens] fails with InvalidRefreshToken exactly when no
    principal has the given id, or the principal's stored refresh hash is
    null, or the presented token does not verify against the stored hash; it
    fails in no other way; and after [logout] of the principal every
    refresh, through the service or through the guarded route, fails with
    InvalidRefreshToken. *)
Theorem refresh_fails_exactly_when {B : Bcrypt} {J : JwtService}
    (cfg : ConfigService) now salt userId presented db :
  bcrypt_rejects_empty_digest B ->
  (fst (refreshTokens cfg now salt userId presented db) = Rejected InvalidRefreshToken
   <->
   find (where_id userId) db = None
   \/ (exists user, find (where_id userId) db = Some user /\ refreshToken user = None)
   \/ (exists user h, find (where_id userId) db = Some user /\
                      refreshToken user = Some h /\
                      bcrypt_compare presented h = false))
  /\ (forall e, fst (refreshTokens cfg now salt userId presented db) = Rejected e ->
                e = InvalidRefreshToken)
  /\ (forall now' salt' presented',
        refreshTokens cfg now' salt' userId presented' (snd (logout userId db))
        = (Rejected InvalidRefreshToken, snd (logout userId db)))
  /\ (forall now' salt' token claims,
        token <> "" ->
        verifyAsync token (JWT_REFRESH_SECRET cfg) now' = Verified claims ->
        sub (claims_payload claims) = userId ->
        AuthController_refresh cfg now' salt' (Some token) (snd (logout userId db))
        = (Rejected InvalidRefreshToken, snd (logout userId db))).
Proof.
  intro Hempty. repeat split.
  - run_async. destruct (find (where_id userId) db) as [user|] eqn:Hfind; [|now left].
    destruct (refreshToken user) as [h|] eqn:Hh; [|intros _; right; left; eauto].
    cbn [falsy]. destruct (String.eqb h "") eqn:Hnil.
    + intros _. right; right. exists user, h. apply String.eqb_eq in Hnil. subst h.
      now rewrite Hempty.
    + destruct (bcrypt_compare presented h) eqn:Hcmp; simpl.
      * discriminate.
      * intros _. right; right. eauto.
  - run_async. intros [Hnone | [(user & Hfind & Hh) | (user & h & Hfind & Hh & Hcmp)]].
    + now rewrite Hnone.
    + now rewrite Hfind, Hh.
    + rewrite Hfind, Hh. cbn [falsy]. destruct (String.eqb h ""); [reflexivity|].
      now rewrite Hcmp.
  - intro e. run_async.
    destruct (find (where_id userId) db) as [user|]; [|simpl; congruence].
    destruct (falsy (refreshToken user)); [simpl; congruence|].
    destruct (negb _); simpl; [congruence | discriminate].
  - intros now' salt' presented'. rewrite logout_patches. apply refresh_after_patch_none.
  - intros now' salt' token claims Hne Hver Hsub. rewrite logout_patches. simpl snd.
    run_async. apply String.eqb_neq in Hne. rewrite Hne, Hver, Hsub, find_id_active_patch.
    destruct (find (where_id_active userId) db); reflexivity.
Qed.

Lemma refresh_fails_exactly_when_witness :
  fst (refreshTokens (bcrypt := plainBcrypt) (jwtService := plainJwt) testConfig
         4 "s3" "u1" "not-the-token" (snd Scenario.logged_in))
  = Rejected InvalidRefreshToken
  /\ refreshTokens (bcrypt := plainBcrypt) (jwtService := plainJwt) testConfig
       4 "s3" "u1" Scenario.issued_refreshToken
       (snd (logout "u1" (snd Scenario.logged_in)))
     = (Rejected InvalidRefreshToken, snd (logout "u1" (snd Scenario.logged_in))).
Proof.
  destruct (refresh_fails_exactly_when (B := plainBcrypt) (J := plainJwt) testConfig
              4 "s3" "u1" "not-the-token" (snd Scenario.logged_in)
              plain_rejects_empty_digest) as (Hiff & _ & Hlogout & _).
  split.
  - apply Hiff. right; right.
    exists (mkUser "u1" "test@example.com" (plain_hash "Password123" "s1") USER
                   (Some (plain_hash Scenario.issued_refreshToken "s2")) true),
           (plain_hash Scenario.issued_refreshToken "s2").
    repeat split; reflexivity.
  - apply Hlogout.
Defined.

(* ===================================================================== *)
(** ** Login *)
(* ===================================================================== *)

(** C5.  [login] fails with InvalidCredentials when no principal has the
    email; otherwise with InactiveAccount when the principal is inactive,
    whatever the password; otherwise with InvalidCredentials when the
    password does not verify.  The first and the third failure are the same
    outcome and leave the same table; the second is a different error. *)
Theorem login_failures {B : Bcrypt} {J : JwtService} (cfg : ConfigService)
    now salt loginDto db :
  (find (where_email (login_email loginDto)) db = None ->
   login cfg now salt loginDto db = (Rejected InvalidCredentials, db))
  /\ (forall user,
        find (where_email (login_email loginDto)) db = Some user ->
        isActive user = false ->
        login cfg now salt loginDto db = (Rejected InactiveAccount, db))
  /\ (forall user,
        find (where_email (login_email loginDto)) db = Some user ->
        isActive user = true ->
        bcrypt_compare (login_password loginDto) (password user) = false ->
        login cfg now salt loginDto db = (Rejected InvalidCredentials, db))
  /\ (forall now' salt' loginDto' user',
        find (where_email (login_email loginDto)) db = None ->
        find (where_email (login_email loginDto')) db = Some user' ->
        isActive user' = true ->
        bcrypt_compare (login_password loginDto') (password user') = false ->
        login cfg now salt loginDto db = login cfg now' salt' loginDto' db)
  /\ InactiveAccount <> InvalidCredentials.
Proof.
  repeat split.
  - intro H. run_async. now rewrite H.
  - intros user H Hoff. run_async. now rewrite H, Hoff.
  - intros user H Hon Hcmp. run_async. now rewrite H, Hon, Hcmp.
  - intros now' salt' loginDto' user' H H' Hon Hcmp. run_async.
    now rewrite H, H', Hon, Hcmp.
  - discriminate.
Qed.

(** When none of the three failures applies, [login] resolves with the
    pair of [generateTokens] and stores the hash of its refresh token. *)
Lemma login_succeeds {B : Bcrypt} {J : JwtService} (cfg : ConfigService)
    now salt loginDto db user :
  find (where_email (login_email loginDto)) db = Some user ->
  isActive user = true ->
  bcrypt_compare (login_password loginDto) (password user) = true ->
  login cfg now salt loginDto db
  = (Resolved (mkLoginResponse (generateTokens cfg now user)
                               (userWithoutSensitiveData user)),
     patch_refreshToken (id user)
       (Some (bcrypt_hash (refreshTokenOf (generateTokens cfg now user)) salt)) db).
Proof.
  intros H Hon Hcmp. run_async. now rewrite H, Hon, Hcmp.
Qed.

(* ===================================================================== *)
(** ** Registration *)
(* ===================================================================== *)

Lemma find_none_existsb (p : User -> bool) (db : Table) :
  find p db = None -> existsb p db = false.
Proof.
  induction db as [|u db IH]; simpl; [reflexivity|].
  destruct (p u); [discriminate | exact IH].
Qed.

Lemma find_email_none (e : string) (db : Table) :
  find (where_email e) db = None <-> (forall user, In user db -> email user <> e).
Proof.
  split.
  - intros H user Hin Heq.
    apply (find_none _ _ H) in Hin. unfold where_email in Hin.
    rewrite Heq, String.eqb_refl in Hin. discriminate.
  - intro H. destruct (find (where_email e) db) as [user|] eqn:E; [|reflexivity].
    apply find_some in E. destruct E as [Hin E]. apply String.eqb_eq in E.
    now destruct (H user Hin).
Qed.

Lemma find_email_append (e : string) (db : Table) (user : User) :
  email user = e ->
  find (where_email e) (db ++ [user]) <> None.
Proof.
  intros He. induction db as [|u db IH]; simpl.
  - unfold where_email. rewrite He, String.eqb_refl. discriminate.
  - destruct (where_email e u); [discriminate | exact IH].
Qed.

(** C6.  [register] fails with DuplicateIdentity exactly when a row with
    the very same email string exists.  Otherwise it appends one row, with
    the given role or [USER] when none is given, the bcrypt digest of the
    password in the password column, no refresh hash, and returns that row
    without its password and refresh-hash columns; a second registration of
    the email then fails with DuplicateIdentity. *)
Theorem register_outcomes {B : Bcrypt} salt generatedId registerDto db :
  let e := reg_email registerDto in
  let r := match reg_role registerDto with Some r => r | None => USER end in
  let stored :=
    mkUser generatedId e (bcrypt_hash (reg_password registerDto) salt) r None true in
  (fst (register salt generatedId registerDto db) = Rejected DuplicateIdentity
   <-> exists user, In user db /\ email user = e)
  /\ ((forall user, In user db -> email user <> e) ->
      register salt generatedId registerDto db
      = (Resolved (userWithoutSensitiveData stored), (db ++ [stored])%list)
      /\ userWithoutSensitiveData stored = mkUserView generatedId e r true
      /\ forall salt' generatedId' password' role',
           register salt' generatedId' (mkRegisterDto e password' role')
                    (snd (register salt generatedId registerDto db))
           = (Rejected DuplicateIdentity, (db ++ [stored])%list)).
Proof.
  intros e r stored. subst e. split.
  - run_async. destruct (find (where_email (reg_email registerDto)) db) as [user|] eqn:E.
    + split; [intros _ | reflexivity].
      apply find_some in E. destruct E as [Hin E]. apply String.eqb_eq in E. eauto.
    + cbn [create email]. rewrite (find_none_existsb _ _ E). simpl.
      split; [discriminate|]. intros (user & Hin & Heq).
      now destruct (proj1 (find_email_none _ _) E user Hin).
  - intro Hfree. apply (proj2 (find_email_none _ _)) in Hfree.
    assert (register salt generatedId registerDto db
            = (Resolved (userWithoutSensitiveData stored), (db ++ [stored])%list)) as Hreg.
    { run_async. rewrite Hfree. cbn [create email]. now rewrite (find_none_existsb _ _ Hfree). }
    repeat split; [exact Hreg|].
    intros salt' generatedId' password' role'. rewrite Hreg. run_async. simpl.
    destruct (find (where_email (reg_email registerDto)) (db ++ [stored])) eqn:E;
      [reflexivity|].
    now destruct (find_email_append (reg_email registerDto) db stored eq_refl).
Qed.

(** Emails are compared as stored: a different capitalisation is a
    different identity. *)
Example register_is_case_sensitive :
  is_resolved
    (fst (register (bcrypt := plainBcrypt) "s9" "u2"
            (mkRegisterDto "Test@example.com" "Password123" None)
            Scenario.registered))
  = true.
Proof. reflexivity. Qed.

(* ===================================================================== *)
(** ** Logout *)
(* ===================================================================== *)

(** C9.  [logout] always resolves; it sets the refresh hash of the
    principal to null whatever it was, and a second [logout] resolves again
    and leaves the table exactly as the first one left it. *)
Theorem logout_idempotent userId db :
  logout userId db
  = (Resolved "Logged out successfully", patch_refreshToken userId None db)
  /\ (forall user,
        find (where_id userId) db = Some user ->
        find (where_id userId) (snd (logout userId db))
        = Some (set_refreshToken None user)
        /\ stored_hash userId (snd (logout userId db)) = None)
  /\ logout userId (snd (logout userId db))
     = (Resolved "Logged out successfully", snd (logout userId db)).
Proof.
  repeat split.
  - rewrite logout_patches. simpl snd. now rewrite find_id_patch, H.
  - rewrite logout_patches. simpl snd. now apply stored_hash_patch with user.
  - rewrite !logout_patches. simpl snd. now rewrite patch_patch.
Qed.

(* ===================================================================== *)
(** ** Token pairs *)
(* ===================================================================== *)

(** C10.  Both tokens of a pair are signed over the same payload (id,
    email, role); the access token differs from the refresh token only by
    the secret and the lifetime it is signed with, so that a configuration
    with one secret and one lifetime yields two equal tokens; and the
    service does not look at the secrets: whether [login] and
    [refreshTokens] succeed is the same under every configuration. *)
Theorem token_pair_shares_payload {B : Bcrypt} {J : JwtService}
    (cfg : ConfigService) now user :
  let payload := mkJwtPayload (id user) (email user) (role user) in
  accessToken (generateTokens cfg now user)
  = signAsync payload (JWT_SECRET cfg) (JWT_EXPIRATION cfg) now
  /\ refreshTokenOf (generateTokens cfg now user)
     = signAsync payload (JWT_REFRESH_SECRET cfg) (JWT_REFRESH_EXPIRATION cfg) now
  /\ (JWT_SECRET cfg = JWT_REFRESH_SECRET cfg ->
      JWT_EXPIRATION cfg = JWT_REFRESH_EXPIRATION cfg ->
      accessToken (generateTokens cfg now user)
      = refreshTokenOf (generateTokens cfg now user))
  /\ (forall cfg' salt loginDto db,
        is_resolved (fst (login cfg now salt loginDto db))
        = is_resolved (fst (login cfg' now salt loginDto db)))
  /\ (forall cfg' salt userId presented db,
        is_resolved (fst (refreshTokens cfg now salt userId presented db))
        = is_resolved (fst (refreshTokens cfg' now salt userId presented db))).
Proof.
  repeat split.
  - intros Hs Ht. unfold generateTokens. simpl. now rewrite Hs, Ht.
  - intros cfg' salt loginDto db. run_async.
    destruct (find _ db) as [u|]; [|reflexivity].
    destruct (negb (isActive u)); [reflexivity|].
    destruct (negb (bcrypt_compare _ _)); reflexivity.
  - intros cfg' salt userId presented db. run_async.
    destruct (find _ db) as [u|]; [|reflexivity].
    destruct (falsy _); [reflexivity|].
    destruct (negb (bcrypt_compare _ _)); reflexivity.
Qed.

(** With one secret for both kinds the refresh route takes an access token. *)
Example shared_secret_refresh_accepts_access_token :
  let session :=
    login (bcrypt := plainBcrypt) (jwtService := plainJwt) sharedSecretConfig 3 "s2"
          (mkLoginDto "test@example.com" "Password123") Scenario.registered in
  let access :=
    match fst session with
    | Resolved r => accessToken (login_tokens r)
    | Rejected _ => ""
    end in
  is_resolved
    (fst (AuthController_refresh (bcrypt := plainBcrypt) (jwtService := plainJwt)
            sharedSecretConfig 4 "s3" (Some access) (snd session)))
  = true.
Proof. reflexivity. Qed.

(* ===================================================================== *)
(** ** The role guard *)
(* ===================================================================== *)

Lemma UserRole_eqb_eq (a b : UserRole) : UserRole_eqb a b = true <-> a = b.
Proof. destruct a, b; simpl; split; congruence. Qed.

Lemma has_role_In (r : UserRole) (requiredRoles : list UserRole) :
  has_role r requiredRoles = true <-> In r requiredRoles.
Proof.
  unfold has_role. rewrite existsb_exists. split.
  - intros (x & Hin & Heq). apply UserRole_eqb_eq in Heq. now subst.
  - intro Hin. exists r. split; [exact Hin | now apply UserRole_eqb_eq].
Qed.

(** C3.  The guard allows when no role is required; otherwise it allows
    exactly when the request carries a principal whose role is one of the
    required ones, and denies when the role is not among them or there is
    no principal role at all.  The four rows of the truth table hold, and
    running the guard changes neither the table nor the request. *)
Theorem roles_guard_decision (requiredRoles : list UserRole)
    (principalRole : option UserRole) :
  decide [] principalRole = allow
  /\ (requiredRoles <> [] ->
      (decide requiredRoles principalRole = allow
       <-> exists r, principalRole = Some r /\ In r requiredRoles)
      /\ (decide requiredRoles principalRole = deny
          <-> principalRole = None
              \/ exists r, principalRole = Some r /\ ~ In r requiredRoles))
  /\ (decide [ADMIN] (Some ADMIN) = allow
      /\ decide [ADMIN] (Some USER) = deny
      /\ decide [ADMIN; MODERATOR] (Some MODERATOR) = allow)
  /\ (forall metadata req db,
        RolesGuard_guard metadata req db
        = (if RolesGuard_canActivate metadata req then Resolved req
           else Rejected (ForbiddenException "Forbidden resource"), db)).
Proof.
  split; [reflexivity|]. split; [|split; [repeat split|]].
  - intro Hne. destruct requiredRoles as [|r0 rs]; [congruence|].
    destruct principalRole as [r|]; cbn [decide].
    + destruct (has_role r (r0 :: rs)) eqn:E; split; split.
      * intros _. exists r. split; [reflexivity | now apply has_role_In].
      * reflexivity.
      * discriminate.
      * intros [H | (r' & H & Hnot)]; [discriminate|].
        injection H as <-. apply has_role_In in E. contradiction.
      * discriminate.
      * intros (r' & H & Hin). injection H as <-. apply has_role_In in Hin. congruence.
      * intros _. right. exists r. split; [reflexivity|].
        intro Hin. apply has_role_In in Hin. congruence.
      * reflexivity.
    + split; split; try discriminate; try reflexivity.
      * intros (r' & H & _). discriminate.
      * intros _. now left.
  - intros metadata req db. unfold RolesGuard_guard, ret, throw.
    destruct (RolesGuard_canActivate metadata req); reflexivity.
Qed.

(** The cases of roles.guard.spec.ts: no metadata; the required role;
    another role; one of several; none of several; no user on the request. *)
Example roles_guard_unit_tests :
  let admin := mkUser "456" "admin@example.com" "" ADMIN None true in
  let user := mkUser "123" "test@example.com" "" USER None true in
  let moderator := mkUser "789" "moderator@example.com" "" MODERATOR None true in
  RolesGuard_canActivate None (mkRequest None (Some user)) = true
  /\ RolesGuard_canActivate (Some [ADMIN]) (mkRequest None (Some admin)) = true
  /\ RolesGuard_canActivate (Some [ADMIN]) (mkRequest None (Some user)) = false
  /\ RolesGuard_canActivate (Some [ADMIN; MODERATOR]) (mkRequest None (Some moderator))
     = true
  /\ RolesGuard_canActivate (Some [ADMIN; MODERATOR]) (mkRequest None (Some user))
     = false
  /\ RolesGuard_canActivate (Some [ADMIN]) (mkRequest None None) = false.
Proof. repeat split. Qed.

(** On the routes of the users controller: an active moderator reaches the
    admin dashboard through both guards and is stopped by the role guard on
    the admin-only listing. *)
Example moderator_on_protected_routes :
  let db := [mkUser "789" "moderator@example.com" "" MODERATOR None true] in
  let token :=
    accessToken (generateTokens (jwtService := plainJwt) testConfig 3
                   (mkUser "789" "moderator@example.com" "" MODERATOR None true)) in
  fst (UsersController_request (jwtService := plainJwt) testConfig 4 admin_dashboard
         (Some token) db) = [JwtAuthGuard_name; RolesGuard_name]
  /\ is_resolved (fst (snd (UsersController_request (jwtService := plainJwt) testConfig 4
                             admin_dashboard (Some token) db))) = true
  /\ snd (UsersController_request (jwtService := plainJwt) testConfig 4 all
            (Some token) db)
     = (Rejected (ForbiddenException "Forbidden resource"), db).
Proof. repeat split. Qed.

(* ===================================================================== *)
(** ** Deactivated accounts *)
(* ===================================================================== *)

Lemma find_email_deactivated db e user subject :
  deactivated db subject ->
  find (where_email e) db = Some user -> id user = subject -> isActive user = false.
Proof.
  intros H Hfind Hid. apply find_some in Hfind. destruct Hfind as [Hin _]. now apply H.
Qed.

(** C7.  Once the account behind a subject id is deactivated, whatever its
    stored refresh hash: [login] with its email fails with InactiveAccount
    for every password; the refresh route rejects every token whose verified
    subject is that id; and on every route of the users controller such an
    access token is rejected by the authentication guard alone: the guard
    log never names the role guard.  The table is left as it was. *)
Theorem inactive_principal_never_authenticated {B : Bcrypt} {J : JwtService}
    (cfg : ConfigService) db subject now :
  deactivated db subject ->
  (forall salt loginDto user,
     find (where_email (login_email loginDto)) db = Some user ->
     id user = subject ->
     login cfg now salt loginDto db = (Rejected InactiveAccount, db))
  /\ (forall salt token,
        (forall claims,
           verifyAsync token (JWT_REFRESH_SECRET cfg) now = Verified claims ->
           sub (claims_payload claims) = subject) ->
        exists e,
          AuthController_refresh cfg now salt (Some token) db = (Rejected e, db)
          /\ (e = InvalidRefreshToken \/ e = Unauthenticated))
  /\ (forall route token,
        (forall claims,
           verifyAsync token (JWT_SECRET cfg) now = Verified claims ->
           sub (claims_payload claims) = subject) ->
        exists e,
          UsersController_request cfg now route (Some token) db
          = ([JwtAuthGuard_name], (Rejected e, db))
          /\ (e = UnauthorizedException "User not found or inactive"
              \/ e = Unauthenticated)).
Proof.
  intro Hoff. repeat split.
  - intros salt loginDto user Hfind Hid. run_async.
    rewrite Hfind.
    now rewrite (find_email_deactivated db (login_email loginDto) user subject).
  - intros salt token Hsub. run_async.
    destruct (String.eqb token ""); [eauto|].
    destruct (verifyAsync token (JWT_REFRESH_SECRET cfg) now) as [claims| |] eqn:Hv;
      [|eauto|eauto].
    rewrite (Hsub claims eq_refl), (find_deactivated _ _ Hoff). eauto.
  - intros route token Hsub.
    assert (exists e,
               JwtAuthGuard_guard cfg now (mkRequest (Some token) None) db
               = (Rejected e, db)
               /\ (e = UnauthorizedException "User not found or inactive"
                   \/ e = Unauthenticated)) as (e & Hg & He).
    { unfold JwtAuthGuard_guard. run_async. cbn [req_bearer].
      destruct (String.eqb token ""); [eauto|].
      destruct (verifyAsync token (JWT_SECRET cfg) now) as [claims| |] eqn:Hv;
        [|eauto|eauto].
      rewrite (Hsub claims eq_refl), (find_deactivated _ _ Hoff). eauto. }
    exists e. split; [|exact He].
    unfold UsersController_request.
    destruct route; cbn [UsersController_guards run_guards]; now rewrite Hg.
Qed.

Lemma inactive_principal_never_authenticated_witness :
  login (bcrypt := plainBcrypt) (jwtService := plainJwt) testConfig 4 "s5"
        (mkLoginDto "test@example.com" "Password123") Scenario.switched_off
  = (Rejected InactiveAccount, Scenario.switched_off)
  /\ stored_hash "u1" Scenario.switched_off
     = Some (plain_hash Scenario.issued_refreshToken "s2")
  /\ (exists e,
        AuthController_refresh (bcrypt := plainBcrypt) (jwtService := plainJwt)
          testConfig 4 "s5" (Some Scenario.issued_refreshToken) Scenario.switched_off
        = (Rejected e, Scenario.switched_off)
        /\ (e = InvalidRefreshToken \/ e = Unauthenticated))
  /\ (exists e,
        UsersController_request (jwtService := plainJwt) testConfig 4 all
          (Some Scenario.issued_accessToken) Scenario.switched_off
        = ([JwtAuthGuard_name], (Rejected e, Scenario.switched_off))
        /\ (e = UnauthorizedException "User not found or inactive"
            \/ e = Unauthenticated)).
Proof.
  assert (deactivated Scenario.switched_off "u1") as Hoff.
  { intros u Hin _. vm_compute in Hin. destruct Hin as [<- | []]. reflexivity. }
  destruct (inactive_principal_never_authenticated (B := plainBcrypt) (J := plainJwt)
              testConfig Scenario.switched_off "u1" 4 Hoff)
    as (Hlogin & Hrefresh & Haccess).
  split; [|split; [reflexivity|split]].
  - apply (Hlogin "s5" (mkLoginDto "test@example.com" "Password123")
             (mkUser "u1" "test@example.com" (plain_hash "Password123" "s1") USER
                     (Some (plain_hash Scenario.issued_refreshToken "s2")) false));
      reflexivity.
  - apply Hrefresh. intros claims Hv. vm_compute in Hv. injection Hv as <-. reflexivity.
  - apply Haccess. intros claims Hv. vm_compute in Hv. injection Hv as <-. reflexivity.
Defined.

(* ===================================================================== *)
(** ** Two refresh calls in flight *)
(* ===================================================================== *)

Section RaceFacts.

Context {B : Bcrypt} {J : JwtService} (cfg : ConfigService).

(** Run without interruption, the five awaits of a call are the service
    method. *)
Lemma refresh_steps_refines now salt userId presented db :
  refresh_steps cfg 5 (start_refresh now salt userId presented) db
  = (at_pc (start_refresh now salt userId presented)
           (settled (fst (refreshTokens cfg now salt userId presented db))),
     snd (refreshTokens cfg now salt userId presented db)).
Proof.
  run_async. unfold start_refresh. cbn.
  destruct (find (where_id userId) db) as [user|]; [|reflexivity].
  destruct (falsy (refreshToken user)); [reflexivity|]. cbn.
  destruct (bcrypt_compare presented _); reflexivity.
Qed.

(** A schedule that lets the first call finish before the second starts is
    the sequential composition of the two. *)
Lemma run_race_serial n m a b db :
  run_race cfg (repeat first n ++ repeat second m) (mkRace a b db)
  = let (a', db1) := refresh_steps cfg n a db in
    let (b', db2) := refresh_steps cfg m b db1 in
    mkRace a' b' db2.
Proof.
  unfold run_race. revert a db. induction n as [|n IHn]; intros a db.
  - cbn [repeat app refresh_steps]. revert b db.
    induction m as [|m IHm]; intros b db; [reflexivity|].
    cbn [repeat fold_left refresh_steps race_step race_first race_second race_db].
    destruct (refresh_step cfg b db) as [b' db']. apply IHm.
  - cbn [repeat app fold_left refresh_steps race_step race_first race_second race_db].
    destruct (refresh_step cfg a db) as [a' db']. apply IHn.
Qed.

Variables (user : User) (h0 : string).
Hypothesis stored : refreshToken user = Some h0.
Hypothesis not_null : falsy (Some h0) = false.

(** The read of a call that finds [user]. *)
Lemma read_on_track c db :
  call_pc c = await_findOne ->
  find (where_id (call_userId c)) db = Some user ->
  refresh_step cfg c db = (on_track cfg user c 4, db).
Proof.
  intros Hpc Hfind. unfold refresh_step. now rewrite Hpc, Hfind, stored, not_null.
Qed.

(** Every later await of a call whose presented token verifies against the
    hash it read; only the last one touches the table. *)
Lemma step_on_track c n db :
  bcrypt_compare (call_presented c) h0 = true ->
  n <= 3 ->
  refresh_step cfg (on_track cfg user c (S n)) db
  = (on_track cfg user c n,
     match n with
     | 0 => patch_refreshToken (id user) (Some (hashed_of cfg user c)) db
     | _ => db
     end).
Proof.
  intros Hcmp Hn. destruct n as [|[|[|[|n]]]]; try lia; try reflexivity.
  unfold refresh_step, on_track. cbn. now rewrite stored, Hcmp.
Qed.

Lemma step_settled c db :
  refresh_step cfg (on_track cfg user c 0) db = (on_track cfg user c 0, db).
Proof. reflexivity. Qed.

Lemma table_after_write db a b writer t :
  patch_refreshToken (id user)
    (Some (hashed_of cfg user (match t with first => a | second => b end)))
    (table_after cfg db user a b writer)
  = table_after cfg db user a b (Some t).
Proof.
  destruct writer as [[|]|], t; cbn [table_after]; try reflexivity; apply patch_patch.
Qed.

(** Once both calls have read, the race is decided by counting: each call
    has as many awaits left as the schedule has not yet given it, and the
    table shows the write of the call whose update came last. *)
Lemma run_race_on_track a b db schedule :
  bcrypt_compare (call_presented a) h0 = true ->
  bcrypt_compare (call_presented b) h0 = true ->
  forall na nb writer,
    na <= 4 -> nb <= 4 ->
    run_race cfg schedule
      (mkRace (on_track cfg user a na) (on_track cfg user b nb)
              (table_after cfg db user a b writer))
    = mkRace (on_track cfg user a (na - count_turn first schedule))
             (on_track cfg user b (nb - count_turn second schedule))
             (table_after cfg db user a b (last_update schedule na nb writer)).
Proof.
  intros Ha Hb. unfold run_race.
  induction schedule as [|t schedule IH]; intros na nb writer Hna Hnb.
  - cbn. now rewrite !Nat.sub_0_r.
  - destruct t.
    + cbn [fold_left race_step race_first race_second race_db].
      change (count_turn first (first :: schedule)) with (S (count_turn first schedule)).
      change (count_turn second (first :: schedule)) with (count_turn second schedule).
      destruct na as [|na].
      * rewrite step_settled. cbn [last_update]. now apply IH.
      * rewrite step_on_track by (trivial; lia). destruct na as [|na].
        -- rewrite (table_after_write db a b writer first). cbn [last_update].
           apply IH; lia.
        -- cbn [last_update]. apply IH; lia.
    + cbn [fold_left race_step race_first race_second race_db].
      change (count_turn second (second :: schedule)) with (S (count_turn second schedule)).
      change (count_turn first (second :: schedule)) with (count_turn first schedule).
      destruct nb as [|nb].
      * rewrite step_settled. cbn [last_update]. now apply IH.
      * rewrite step_on_track by (trivial; lia). destruct nb as [|nb].
        -- rewrite (table_after_write db a b writer second). cbn [last_update].
           apply IH; lia.
        -- cbn [last_update]. apply IH; lia.
Qed.

End RaceFacts.

(** A schedule that lets both calls finish has a last update. *)
Lemma last_update_complete schedule :
  forall a b writer,
    a <= count_turn first schedule ->
    0 < a \/ writer <> None ->
    last_update schedule a b writer <> None.
Proof.
  induction schedule as [|t schedule IH]; intros a b writer Ha Hw.
  - cbn in *. destruct Hw; [lia | assumption].
  - destruct t.
    + change (count_turn first (first :: schedule))
        with (S (count_turn first schedule)) in Ha.
      destruct a as [|[|a]]; cbn [last_update].
      * apply IH; [lia|]. destruct Hw; [lia | now right].
      * apply IH; [lia|]. right. discriminate.
      * apply IH; [lia|]. left. lia.
    + change (count_turn first (second :: schedule))
        with (count_turn first schedule) in Ha.
      destruct b as [|[|b]]; cbn [last_update]; apply IH; trivial.
      destruct Hw; [now left | right; discriminate].
Qed.

(** C2 (as worded) fails.  Both calls of the scenario present the token of
    the login; each looks the principal up before the other writes, and
    each finds its token to be the stored one: both succeed. *)
Lemma race_as_specified_fails_when_interleaved :
  ~ race_as_specified (B := plainBcrypt) (J := plainJwt) testConfig.
Proof.
  intro H.
  destruct (H Scenario.two_calls Scenario.interleaved "u1" Scenario.issued_refreshToken
              (mkUser "u1" "test@example.com" (plain_hash "Password123" "s1") USER
                      (Some (plain_hash Scenario.issued_refreshToken "s2")) true)
              eq_refl eq_refl eq_refl eq_refl eq_refl eq_refl eq_refl)
    as (winner & loser & tokens & Hwho & _ & Hloser & _).
  - exists (plain_hash Scenario.issued_refreshToken "s2"). split; reflexivity.
  - cbn. lia.
  - cbn. lia.
  - destruct Hwho as [[_ ->] | [_ ->]]; vm_compute in Hloser; discriminate.
Qed.

(* ===================================================================== *)
(** ** The service as a whole: how its methods compose *)
(* ===================================================================== *)

Lemma find_append_last (p : User -> bool) (db : Table) (row : User) :
  find p db = None ->
  find p (db ++ [row]) = if p row then Some row else None.
Proof.
  induction db as [|u db IH]; simpl; [reflexivity|].
  destruct (p u); [discriminate | exact IH].
Qed.

Lemma find_id_none (i : string) (db : Table) :
  (forall u, In u db -> id u <> i) -> find (where_id i) db = None.
Proof.
  intro H. destruct (find (where_id i) db) as [u|] eqn:E; [|reflexivity].
  apply find_some in E. destruct E as [Hin E]. apply String.eqb_eq in E.
  now destruct (H u Hin).
Qed.

Lemma find_id_of_member (u : User) (db : Table) :
  In u db -> exists row, find (where_id (id u)) db = Some row /\ id row = id u.
Proof.
  intro Hin. destruct (find (where_id (id u)) db) as [row|] eqn:E.
  - exists row. split; [reflexivity|].
    apply find_some in E. destruct E as [_ E]. now apply String.eqb_eq in E.
  - apply (find_none _ _ E) in Hin. unfold where_id in Hin.
    rewrite String.eqb_refl in Hin. discriminate.
Qed.

Lemma patch_without_match (i : string) (h : option string) (db : Table) :
  (forall u, In u db -> id u <> i) -> patch_refreshToken i h db = db.
Proof.
  intro H. unfold patch_refreshToken. induction db as [|u db IH]; simpl; [reflexivity|].
  rewrite IH by (intros v Hv; apply H; now right).
  assert (where_id i u = false) as ->; [|reflexivity].
  apply String.eqb_neq. apply H. now left.
Qed.

Lemma patch_other_rows (i : string) (h : option string) (db : Table) (u : User) :
  id u <> i -> (In u (patch_refreshToken i h db) <-> In u db).
Proof.
  intro Hne. unfold patch_refreshToken. rewrite in_map_iff. split.
  - intros (u0 & Hu & Hin). destruct (where_id i u0) eqn:E; subst u.
    + apply String.eqb_eq in E. now destruct Hne.
    + exact Hin.
  - intro Hin. exists u. split; [|exact Hin].
    apply String.eqb_neq in Hne. unfold where_id. now rewrite Hne.
Qed.

(** A registration under a free email, spelled out. *)
Lemma register_fresh {B : Bcrypt} salt generatedId registerDto db :
  find (where_email (reg_email registerDto)) db = None ->
  register salt generatedId registerDto db
  = (Resolved (mkUserView generatedId (reg_email registerDto)
                 (match reg_role registerDto with Some r => r | None => USER end) true),
     (db ++ [mkUser generatedId (reg_email registerDto)
               (bcrypt_hash (reg_password registerDto) salt)
               (match reg_role registerDto with Some r => r | None => USER end)
               None true])%list).
Proof.
  intro Hfree. run_async. rewrite Hfree. cbn [create email].
  now rewrite (find_none_existsb _ _ Hfree).
Qed.

(** A resolved login, read backwards. *)
Lemma login_resolved {B : Bcrypt} {J : JwtService} (cfg : ConfigService)
    now salt loginDto db response db1 :
  login cfg now salt loginDto db = (Resolved response, db1) ->
  exists user,
    find (where_email (login_email loginDto)) db = Some user
    /\ isActive user = true
    /\ bcrypt_compare (login_password loginDto) (password user) = true
    /\ response = mkLoginResponse (generateTokens cfg now user)
                                  (userWithoutSensitiveData user)
    /\ db1 = patch_refreshToken (id user)
               (Some (bcrypt_hash (refreshTokenOf (generateTokens cfg now user)) salt)) db.
Proof.
  run_async. destruct (find _ db) as [user|]; [|discriminate].
  destruct (isActive user) eqn:Hon; [|discriminate]. cbn [negb].
  destruct (bcrypt_compare _ _) eqn:Hcmp; [|discriminate]. cbn [negb].
  intro H. injection H as <- <-. exists user. repeat split; assumption.
Qed.

(** A resolved refresh, read backwards. *)
Lemma refresh_resolved {B : Bcrypt} {J : JwtService} (cfg : ConfigService)
    now salt userId presented db tokens db1 :
  refreshTokens cfg now salt userId presented db = (Resolved tokens, db1) ->
  exists user h,
    find (where_id userId) db = Some user
    /\ refreshToken user = Some h
    /\ bcrypt_compare presented h = true
    /\ tokens = generateTokens cfg now user
    /\ db1 = patch_refreshToken userId
               (Some (bcrypt_hash (refreshTokenOf (generateTokens cfg now user)) salt)) db.
Proof.
  run_async. destruct (find _ db) as [user|] eqn:Hfind; [|discriminate].
  destruct (refreshToken user) as [h|] eqn:Hh; [|discriminate].
  destruct (falsy (Some h)); [discriminate|].
  destruct (bcrypt_compare presented h) eqn:Hcmp; [|discriminate]. cbn [negb].
  intro H. injection H as <- <-. exists user, h.
  apply find_some in Hfind as Hid. destruct Hid as [_ Hid]. apply String.eqb_eq in Hid.
  repeat split; trivial. now rewrite <- Hid.
Qed.

(** The refresh token whose hash was just written for an id is accepted. *)
Lemma written_token_accepted {B : Bcrypt} {J : JwtService} (cfg : ConfigService)
    now salt i token salt0 db row :
  bcrypt_accepts_own B ->
  bcrypt_rejects_empty_digest B ->
  find (where_id i) db = Some row ->
  let db1 := patch_refreshToken i (Some (bcrypt_hash token salt0)) db in
  refreshTokens cfg now salt i token db1
  = (Resolved (generateTokens cfg now row),
     patch_refreshToken i
       (Some (bcrypt_hash (refreshTokenOf (generateTokens cfg now row)) salt)) db1).
Proof.
  intros Hown Hempty Hfind db1. run_async. unfold db1.
  rewrite find_id_patch, Hfind. cbn [option_map set_refreshToken refreshToken].
  rewrite (hash_not_empty _ _ Hown Hempty), Hown. cbn.
  apply find_some in Hfind. destruct Hfind as [_ Hid]. apply String.eqb_eq in Hid.
  now rewrite <- Hid.
Qed.

(** X1.  A principal registered under a free email can log in at once with
    the same email and password: the login resolves with the pair signed for
    the new row and the view of that row, and stores the hash of the refresh
    token on it. *)
Theorem register_then_login {B : Bcrypt} {J : JwtService} (cfg : ConfigService)
    salt generatedId registerDto now salt' db :
  bcrypt_accepts_own B ->
  (forall user, In user db -> email user <> reg_email registerDto) ->
  let r := match reg_role registerDto with Some r => r | None => USER end in
  let row := mkUser generatedId (reg_email registerDto)
                    (bcrypt_hash (reg_password registerDto) salt) r None true in
  let db1 := snd (register salt generatedId registerDto db) in
  login cfg now salt'
        (mkLoginDto (reg_email registerDto) (reg_password registerDto)) db1
  = (Resolved (mkLoginResponse (generateTokens cfg now row)
                 (mkUserView generatedId (reg_email registerDto) r true)),
     patch_refreshToken generatedId
       (Some (bcrypt_hash (refreshTokenOf (generateTokens cfg now row)) salt')) db1).
Proof.
  intros Hown Hfree r row db1.
  apply (proj2 (find_email_none _ _)) in Hfree.
  unfold db1. rewrite (register_fresh _ _ _ _ Hfree). cbn [snd].
  apply login_succeeds; cbn [login_email login_password].
  - rewrite (find_append_last _ _ _ Hfree). unfold where_email. cbn [email].
    now rewrite String.eqb_refl.
  - reflexivity.
  - apply Hown.
Qed.

Lemma register_then_login_witness :
  let row := mkUser "u1" "test@example.com" (plain_hash "Password123" "s1") USER
                    None true in
  let tokens := generateTokens (jwtService := plainJwt) testConfig 3 row in
  login (bcrypt := plainBcrypt) (jwtService := plainJwt) testConfig 3 "s2"
        (mkLoginDto "test@example.com" "Password123") Scenario.registered
  = (Resolved (mkLoginResponse tokens (mkUserView "u1" "test@example.com" USER true)),
     patch_refreshToken "u1" (Some (plain_hash (refreshTokenOf tokens) "s2"))
                        Scenario.registered).
Proof.
  apply (register_then_login (B := plainBcrypt) (J := plainJwt) testConfig
           "s1" "u1" (mkRegisterDto "test@example.com" "Password123" None) 3 "s2" []
           plain_accepts_own).
  intros user [].
Defined.

(** X3.  Registration opens no session: when the store hands out an id no
    row has yet, every refresh for the new principal fails with
    InvalidRefreshToken, whatever token is presented, until a login. *)
Theorem register_leaves_no_session {B : Bcrypt} {J : JwtService}
    (cfg : ConfigService) salt generatedId registerDto now salt' presented db :
  (forall user, In user db -> email user <> reg_email registerDto) ->
  (forall user, In user db -> id user <> generatedId) ->
  let db1 := snd (register salt generatedId registerDto db) in
  stored_hash generatedId db1 = None
  /\ refreshTokens cfg now salt' generatedId presented db1
     = (Rejected InvalidRefreshToken, db1).
Proof.
  intros Hfree Hid db1.
  apply (proj2 (find_email_none _ _)) in Hfree. apply find_id_none in Hid.
  unfold db1. rewrite (register_fresh _ _ _ _ Hfree). cbn [snd].
  unfold stored_hash. run_async. rewrite (find_append_last _ _ _ Hid).
  unfold where_id. cbn [id]. rewrite String.eqb_refl. split; reflexivity.
Qed.

Lemma register_leaves_no_session_witness :
  refreshTokens (bcrypt := plainBcrypt) (jwtService := plainJwt) testConfig 3 "s2"
                "u1" "any-token" Scenario.registered
  = (Rejected InvalidRefreshToken, Scenario.registered).
Proof.
  apply (register_leaves_no_session (B := plainBcrypt) (J := plainJwt) testConfig
           "s1" "u1" (mkRegisterDto "test@example.com" "Password123" None) 3 "s2"
           "any-token" []); intros user [].
Defined.

Lemma find_of_member (p : User -> bool) (x : User) (db : Table) :
  In x db -> p x = true -> exists y, find p db = Some y /\ p y = true.
Proof.
  intros Hin Hp. destruct (find p db) as [y|] eqn:E.
  - exists y. split; [reflexivity|]. now apply find_some in E.
  - rewrite (find_none _ _ E x Hin) in Hp. discriminate.
Qed.

(** X4.  The refresh token a login or a refresh has just returned is
    accepted by the next refresh for that principal, at whatever clock
    second it comes, and that refresh stores the hash of the token it
    returns in turn. *)
Theorem issued_token_is_accepted {B : Bcrypt} {J : JwtService} (cfg : ConfigService)
    now' salt' db :
  bcrypt_accepts_own B ->
  bcrypt_rejects_empty_digest B ->
  (forall now salt loginDto response db1,
     login cfg now salt loginDto db = (Resolved response, db1) ->
     exists tokens,
       refreshTokens cfg now' salt' (view_id (login_user response))
                     (refreshTokenOf (login_tokens response)) db1
       = (Resolved tokens,
          patch_refreshToken (view_id (login_user response))
            (Some (bcrypt_hash (refreshTokenOf tokens) salt')) db1))
  /\ (forall now salt userId presented tokens db1,
        refreshTokens cfg now salt userId presented db = (Resolved tokens, db1) ->
        exists tokens',
          refreshTokens cfg now' salt' userId (refreshTokenOf tokens) db1
          = (Resolved tokens',
             patch_refreshToken userId
               (Some (bcrypt_hash (refreshTokenOf tokens') salt')) db1)).
Proof.
  intros Hown Hempty. split.
  - intros now salt loginDto response db1 Hlogin.
    apply login_resolved in Hlogin.
    destruct Hlogin as (user & Hfind & _ & _ & -> & ->).
    apply find_some in Hfind. destruct Hfind as [Hin _].
    destruct (find_id_of_member user db Hin) as (row & Hrow & _).
    cbn [login_user login_tokens userWithoutSensitiveData view_id].
    eexists.
    apply (written_token_accepted cfg now' salt' (id user) _ salt db row Hown Hempty Hrow).
  - intros now salt userId presented tokens db1 Hrefresh.
    apply refresh_resolved in Hrefresh.
    destruct Hrefresh as (user & h & Hfind & _ & _ & -> & ->).
    eexists.
    apply (written_token_accepted cfg now' salt' userId _ salt db user Hown Hempty Hfind).
Qed.

Lemma issued_token_is_accepted_witness :
  exists tokens,
    refreshTokens (bcrypt := plainBcrypt) (jwtService := plainJwt) testConfig 9 "s7"
                  "u1" Scenario.issued_refreshToken (snd Scenario.logged_in)
    = (Resolved tokens,
       patch_refreshToken "u1" (Some (plain_hash (refreshTokenOf tokens) "s7"))
                          (snd Scenario.logged_in)).
Proof.
  apply (proj1 (issued_token_is_accepted (B := plainBcrypt) (J := plainJwt) testConfig
                  9 "s7" Scenario.registered
                  plain_accepts_own plain_rejects_empty_digest)
               3 "s2" (mkLoginDto "test@example.com" "Password123")
               (mkLoginResponse
                  (generateTokens (jwtService := plainJwt) testConfig 3
                     (mkUser "u1" "test@example.com" (plain_hash "Password123" "s1")
                             USER None true))
                  (mkUserView "u1" "test@example.com" USER true))
               (snd Scenario.logged_in)).
  reflexivity.
Defined.

(** X5.  Through the guarded route, the refresh token of a login is good
    until its lifetime is over and not a second longer: before
    [now + JWT_REFRESH_EXPIRATION] the route rotates; from that second on
    it answers Unauthorized and leaves the table alone, although the hash of
    the token is still stored. *)
Theorem route_refresh_within_lifetime {B : Bcrypt} {J : JwtService}
    (cfg : ConfigService) now salt loginDto db response db1 now' salt' :
  bcrypt_accepts_own B ->
  bcrypt_rejects_empty_digest B ->
  jwt_verifies_own J ->
  jwt_expires J ->
  jwt_tokens_nonempty J ->
  login cfg now salt loginDto db = (Resolved response, db1) ->
  let token := refreshTokenOf (login_tokens response) in
  (now' < now + JWT_REFRESH_EXPIRATION cfg ->
   exists tokens,
     AuthController_refresh cfg now' salt' (Some token) db1
     = (Resolved tokens,
        patch_refreshToken (view_id (login_user response))
          (Some (bcrypt_hash (refreshTokenOf tokens) salt')) db1))
  /\ (now + JWT_REFRESH_EXPIRATION cfg <= now' ->
      AuthController_refresh cfg now' salt' (Some token) db1
      = (Rejected Unauthenticated, db1)
      /\ stored_hash (view_id (login_user response)) db1
         = Some (bcrypt_hash token salt)).
Proof.
  intros Hown Hempty Hverify Hexpire Hnonempty Hlogin token.
  apply login_resolved in Hlogin.
  destruct Hlogin as (user & Hfind & Hon & _ & -> & ->).
  apply find_some in Hfind. destruct Hfind as [Hin _].
  destruct (find_id_of_member user db Hin) as (row & Hrow & Hrowid).
  cbn [login_user login_tokens userWithoutSensitiveData view_id] in *.
  assert (String.eqb token "" = false) as Hne.
  { apply String.eqb_neq. apply Hnonempty. }
  unfold AuthController_refresh, JwtRefreshGuard, passport_jwt,
    JwtRefreshStrategy_validate, bind, findOne, throw, ret.
  rewrite Hne. split.
  - intro Hlive. unfold token at 1, generateTokens at 1. cbn [refreshTokenOf].
    rewrite (Hverify _ _ _ _ _ Hlive). cbn [claims_payload sub].
    rewrite find_id_active_patch.
    destruct (find_of_member (where_id_active (id user)) user db Hin)
      as (active & -> & Hactive).
    { unfold where_id_active. now rewrite String.eqb_refl, Hon. }
    cbn [option_map set_refreshToken refreshToken id].
    rewrite (hash_not_empty _ _ Hown Hempty).
    unfold where_id_active in Hactive. apply andb_prop in Hactive.
    destruct Hactive as [Hactive _]. apply String.eqb_eq in Hactive.
    change (id (set_refreshToken
                  (Some (bcrypt_hash (refreshTokenOf (generateTokens cfg now user)) salt))
                  active)) with (id active).
    rewrite Hactive.
    eexists.
    apply (written_token_accepted cfg now' salt' (id user) _ salt db row Hown Hempty Hrow).
  - intro Hdead. unfold token at 1, generateTokens at 1. cbn [refreshTokenOf].
    rewrite (Hexpire _ _ _ _ _ Hdead). split; [reflexivity|].
    now rewrite (stored_hash_patch _ _ _ _ Hrow).
Qed.

Lemma plain_tokens_nonempty : jwt_tokens_nonempty plainJwt.
Proof.
  intros p secret expiresIn issued. simpl. unfold plain_sign, enc_str.
  destruct (String.length secret); discriminate.
Qed.

Lemma route_refresh_within_lifetime_witness :
  (exists tokens,
     AuthController_refresh (bcrypt := plainBcrypt) (jwtService := plainJwt)
       testConfig 62 "s7" (Some Scenario.issued_refreshToken) (snd Scenario.logged_in)
     = (Resolved tokens,
        patch_refreshToken "u1" (Some (plain_hash (refreshTokenOf tokens) "s7"))
                           (snd Scenario.logged_in)))
  /\ AuthController_refresh (bcrypt := plainBcrypt) (jwtService := plainJwt)
       testConfig 63 "s7" (Some Scenario.issued_refreshToken) (snd Scenario.logged_in)
     = (Rejected Unauthenticated, snd Scenario.logged_in).
Proof.
  pose (response :=
          mkLoginResponse
            (generateTokens (jwtService := plainJwt) testConfig 3
               (mkUser "u1" "test@example.com" (plain_hash "Password123" "s1")
                       USER None true))
            (mkUserView "u1" "test@example.com" USER true)).
  split.
  - apply (proj1 (route_refresh_within_lifetime (B := plainBcrypt) (J := plainJwt)
                    testConfig 3 "s2" (mkLoginDto "test@example.com" "Password123")
                    Scenario.registered response (snd Scenario.logged_in) 62 "s7"
                    plain_accepts_own plain_rejects_empty_digest plain_verifies_own
                    plain_expires plain_tokens_nonempty eq_refl)).
    simpl. lia.
  - apply (proj2 (route_refresh_within_lifetime (B := plainBcrypt) (J := plainJwt)
                    testConfig 3 "s2" (mkLoginDto "test@example.com" "Password123")
                    Scenario.registered response (snd Scenario.logged_in) 63 "s7"
                    plain_accepts_own plain_rejects_empty_digest plain_verifies_own
                    plain_expires plain_tokens_nonempty eq_refl)).
    simpl. lia.
Defined.

(* ===================================================================== *)
(** ** What no call ever does *)
(* ===================================================================== *)

Lemma account_patch i h u :
  account (if where_id i u then set_refreshToken h u else u) = account u.
Proof. destruct (where_id i u); reflexivity. Qed.

Lemma map_account_patch i h db :
  map account (patch_refreshToken i h db) = map account db.
Proof.
  unfold patch_refreshToken. rewrite map_map. apply map_ext. intro u.
  apply account_patch.
Qed.

Lemma map_email_patch i h db :
  map email (patch_refreshToken i h db) = map email db.
Proof.
  unfold patch_refreshToken. rewrite map_map. apply map_ext. intro u.
  destruct (where_id i u); reflexivity.
Qed.

(** What a single call can do to the table: nothing, one write of the
    session column of the rows with one id, or one new row without a
    session under an email no row had. *)
Lemma perform_cases {B : Bcrypt} {J : JwtService} (cfg : ConfigService) db op :
  perform cfg db op = db
  \/ (exists i h, perform cfg db op = patch_refreshToken i h db)
  \/ (exists row,
        perform cfg db op = (db ++ [row])%list
        /\ refreshToken row = None
        /\ find (where_email (email row)) db = None).
Proof.
  destruct op as [salt gid dto | now salt dto | now salt uid tok | uid]; cbn [perform].
  - run_async. destruct (find (where_email (reg_email dto)) db) eqn:E; [now left|].
    cbn [create email]. rewrite (find_none_existsb _ _ E). cbn [snd].
    right; right. eexists. repeat split. exact E.
  - run_async. destruct (find _ db) as [u|]; [|now left].
    destruct (negb (isActive u)); [now left|].
    destruct (negb (bcrypt_compare _ _)); [now left|]. right; left. cbn [snd]. eauto.
  - run_async. destruct (find _ db) as [u|]; [|now left].
    destruct (falsy _); [now left|].
    destruct (negb (bcrypt_compare _ _)); [now left|]. right; left. cbn [snd]. eauto.
  - right; left. exists uid, None. reflexivity.
Qed.

(** X7.  No call removes a principal or changes the id, email, password
    hash, role or active flag of one: after any history the accounts that
    were there are there unchanged and in place, followed by the accounts
    registered since, at most one per call. *)
Theorem accounts_are_never_changed {B : Bcrypt} {J : JwtService}
    (cfg : ConfigService) history db :
  exists added,
    map account (perform_all cfg history db) = (map account db ++ added)%list
    /\ length added <= length history.
Proof.
  unfold perform_all. revert db. induction history as [|op history IH]; intro db.
  - exists []. cbn. now rewrite app_nil_r.
  - cbn [fold_left].
    destruct (perform_cases cfg db op) as [E | [(i & h & E) | (row & E & _)]];
      rewrite E.
    + destruct (IH db) as (added & Heq & Hlen).
      exists added. split; [exact Heq | cbn; lia].
    + destruct (IH (patch_refreshToken i h db)) as (added & Heq & Hlen).
      rewrite map_account_patch in Heq. exists added. split; [exact Heq | cbn; lia].
    + destruct (IH (db ++ [row])%list) as (added & Heq & Hlen).
      rewrite map_app, <- app_assoc in Heq. eexists. split; [exact Heq|].
      cbn. lia.
Qed.

(** X8.  Emails stay unique: if no two rows share an email, no history of
    calls makes two rows share one. *)
Theorem emails_stay_unique {B : Bcrypt} {J : JwtService} (cfg : ConfigService)
    history db :
  NoDup (map email db) ->
  NoDup (map email (perform_all cfg history db)).
Proof.
  unfold perform_all. revert db. induction history as [|op history IH]; intros db Hdb.
  - exact Hdb.
  - cbn [fold_left]. apply IH.
    destruct (perform_cases cfg db op) as [E | [(i & h & E) | (row & E & _ & Hfree)]];
      rewrite E.
    + exact Hdb.
    + now rewrite map_email_patch.
    + rewrite map_app. cbn [map].
      apply NoDup_app; [exact Hdb | constructor; [intros [] | constructor] |].
      intros e Hin [<- | []].
      apply in_map_iff in Hin. destruct Hin as (u & Hu & Hin).
      apply (proj1 (find_email_none _ _) Hfree u Hin Hu).
Qed.

Lemma emails_stay_unique_witness :
  NoDup (map email
           (perform_all (bcrypt := plainBcrypt) (jwtService := plainJwt) testConfig
              [do_register "s8" "u2" (mkRegisterDto "test@example.com" "Other12345" None);
               do_register "s9" "u3" (mkRegisterDto "admin@example.com" "Admin12345"
                                                    (Some ADMIN))]
              Scenario.registered)).
Proof.
  apply (emails_stay_unique (B := plainBcrypt) (J := plainJwt)).
  cbn. constructor; [intros [] | constructor].
Defined.

(** X9.  A refresh, a logout or a login for one principal touches no row
    of another: the rows whose id is not the one written are the same
    before and after, session column included. *)
Theorem other_principals_untouched {B : Bcrypt} {J : JwtService}
    (cfg : ConfigService) db u :
  (forall now salt userId presented,
     id u <> userId ->
     (In u (snd (refreshTokens cfg now salt userId presented db)) <-> In u db))
  /\ (forall userId,
        id u <> userId -> (In u (snd (logout userId db)) <-> In u db))
  /\ (forall now salt loginDto,
        (forall user,
           find (where_email (login_email loginDto)) db = Some user ->
           id u <> id user) ->
        (In u (snd (login cfg now salt loginDto db)) <-> In u db)).
Proof.
  repeat split.
  - run_async. destruct (find _ db) as [user|] eqn:Hfind; [|trivial].
    destruct (falsy _); [trivial|]. destruct (negb _); [trivial|]. cbn [snd].
    apply find_some in Hfind. destruct Hfind as [_ Hid]. apply String.eqb_eq in Hid.
    apply patch_other_rows. congruence.
  - run_async. destruct (find _ db) as [user|] eqn:Hfind; [|trivial].
    destruct (falsy _); [trivial|]. destruct (negb _); [trivial|]. cbn [snd].
    apply find_some in Hfind. destruct Hfind as [_ Hid]. apply String.eqb_eq in Hid.
    apply patch_other_rows. congruence.
  - change (snd (logout userId db)) with (patch_refreshToken userId None db).
    now apply patch_other_rows.
  - change (snd (logout userId db)) with (patch_refreshToken userId None db).
    now apply patch_other_rows.
  - run_async. destruct (find _ db) as [user|]; [|trivial].
    destruct (negb (isActive user)); [trivial|]. destruct (negb _); [trivial|].
    cbn [snd]. apply patch_other_rows. now apply H.
  - run_async. destruct (find _ db) as [user|]; [|trivial].
    destruct (negb (isActive user)); [trivial|]. destruct (negb _); [trivial|].
    cbn [snd]. apply patch_other_rows. now apply H.
Qed.

(** X10.  [logout] does not check that the principal exists: for an id no
    row has it reports success and leaves the table untouched. *)
Theorem logout_unknown_id userId db :
  (forall u, In u db -> id u <> userId) ->
  logout userId db = (Resolved "Logged out successfully", db).
Proof.
  intro H. rewrite logout_patches. now rewrite patch_without_match.
Qed.

Lemma logout_unknown_id_witness :
  logout "no-such-id" Scenario.registered
  = (Resolved "Logged out successfully", Scenario.registered).
Proof.
  apply logout_unknown_id. intros u Hin. vm_compute in Hin.
  destruct Hin as [<- | []]. discriminate.
Defined.

(** X11.  [JwtRefreshStrategy.validate] hands a user to the route exactly
    when the first active row with the subject's id holds a non-empty
    refresh hash; that user is a row of the table, active, with the id the
    token names.  Otherwise it throws 'Invalid refresh token'.  It never
    writes, and it reads nothing of the payload but the subject: the email
    and the role of the handed user are those of the table. *)
Theorem refresh_strategy_validate payload db :
  (forall user,
     JwtRefreshStrategy_validate payload db = (Resolved user, db)
     <-> find (where_id_active (sub payload)) db = Some user
         /\ falsy (refreshToken user) = false)
  /\ (forall user db',
        JwtRefreshStrategy_validate payload db = (Resolved user, db') ->
        db' = db /\ In user db /\ id user = sub payload /\ isActive user = true
        /\ exists h, refreshToken user = Some h /\ h <> "")
  /\ (forall e db',
        JwtRefreshStrategy_validate payload db = (Rejected e, db') ->
        e = InvalidRefreshToken /\ db' = db)
  /\ (forall payload',
        sub payload' = sub payload ->
        JwtRefreshStrategy_validate payload' db = JwtRefreshStrategy_validate payload db).
Proof.
  split; [|split; [|split]].
  - intro user. split.
    + run_async. destruct (find _ db) as [u|]; [|discriminate].
      destruct (falsy (refreshToken u)) eqn:E; [discriminate|].
      intro H. injection H as <-. now split.
    + intros [Hfind Hhash]. run_async. now rewrite Hfind, Hhash.
  - intros user db'. run_async.
    destruct (find _ db) as [u|] eqn:Hfind; [|discriminate].
    destruct (refreshToken u) as [h|] eqn:Hh; [|discriminate].
    cbn [falsy]. destruct (String.eqb h "") eqn:E; [discriminate|].
    intro H. injection H as <- <-.
    apply find_some in Hfind. destruct Hfind as [Hin Hp].
    unfold where_id_active in Hp. apply andb_prop in Hp. destruct Hp as [Hid Hon].
    apply String.eqb_eq in Hid.
    repeat split; trivial.
    * destruct (isActive u); [reflexivity | discriminate].
    * exists h. split; [exact Hh | now apply String.eqb_neq].
  - intros e db'. run_async. destruct (find _ db) as [u|].
    + destruct (falsy (refreshToken u)); [|discriminate].
      intro H. injection H as <- <-. now split.
    + intro H. injection H as <- <-. now split.
  - intros payload' Hsub. run_async. now rewrite Hsub.
Qed.

(** X12.  A logout does not cancel a refresh that is already under way.
    When the call has looked the principal up and the logout then clears
    the hash, the call still runs to its end, resolves, and writes the hash
    of its new refresh token: the principal has a live session again. *)
Theorem logout_does_not_cancel_refresh_in_flight {B : Bcrypt} {J : JwtService}
    (cfg : ConfigService) db userId user h0 presented now salt :
  find (where_id userId) db = Some user ->
  refreshToken user = Some h0 ->
  falsy (Some h0) = false ->
  bcrypt_compare presented h0 = true ->
  let call := start_refresh now salt userId presented in
  let tokens := generateTokens cfg now user in
  let hashed := bcrypt_hash (refreshTokenOf tokens) salt in
  let after_lookup := refresh_step cfg call db in
  let after_logout := snd (logout userId (snd after_lookup)) in
  stored_hash userId after_logout = None
  /\ refresh_steps cfg 4 (fst after_lookup) after_logout
     = (at_pc call (settled (Resolved tokens)),
        patch_refreshToken userId (Some hashed) db)
  /\ stored_hash userId (patch_refreshToken userId (Some hashed) db) = Some hashed.
Proof.
  intros Hfind Hstored Hnull Hcmp call tokens hashed after_lookup after_logout.
  assert (id user = userId) as Hid.
  { apply find_some in Hfind. destruct Hfind as [_ E]. now apply String.eqb_eq in E. }
  unfold after_logout, after_lookup.
  rewrite (read_on_track cfg user h0 Hstored Hnull call db eq_refl Hfind).
  cbn [fst snd]. rewrite logout_patches. cbn [snd]. repeat split.
  - now apply stored_hash_patch with user.
  - cbn [refresh_steps].
    rewrite (step_on_track cfg user h0 Hstored call 3) by (trivial; lia).
    rewrite (step_on_track cfg user h0 Hstored call 2) by (trivial; lia).
    rewrite (step_on_track cfg user h0 Hstored call 1) by (trivial; lia).
    rewrite (step_on_track cfg user h0 Hstored call 0) by (trivial; lia).
    rewrite Hid, patch_patch. reflexivity.
  - now apply stored_hash_patch with user.
Qed.

Lemma logout_does_not_cancel_refresh_in_flight_witness :
  let call := start_refresh 4 "s3" "u1" Scenario.issued_refreshToken in
  let after_lookup :=
    refresh_step (bcrypt := plainBcrypt) (jwtService := plainJwt) testConfig call
                 (snd Scenario.logged_in) in
  let after_logout := snd (logout "u1" (snd after_lookup)) in
  stored_hash "u1" after_logout = None
  /\ is_settled (call_pc (fst (refresh_steps (bcrypt := plainBcrypt)
                                 (jwtService := plainJwt) testConfig 4
                                 (fst after_lookup) after_logout))) = true
  /\ stored_hash "u1"
       (snd (refresh_steps (bcrypt := plainBcrypt) (jwtService := plainJwt) testConfig 4
               (fst after_lookup) after_logout))
     <> None.
Proof.
  intros call after_lookup after_logout.
  destruct (logout_does_not_cancel_refresh_in_flight
              (B := plainBcrypt) (J := plainJwt) testConfig
              (snd Scenario.logged_in) "u1"
              (mkUser "u1" "test@example.com" (plain_hash "Password123" "s1") USER
                      (Some (plain_hash Scenario.issued_refreshToken "s2")) true)
              (plain_hash Scenario.issued_refreshToken "s2")
              Scenario.issued_refreshToken 4 "s3"
              eq_refl eq_refl eq_refl eq_refl) as (Hcleared & Hruns & Hlive).
  split; [exact Hcleared|].
  unfold after_logout, after_lookup, call. rewrite Hruns. cbn [fst snd].
  split; [reflexivity|]. rewrite Hlive. discriminate.
Defined.

(* ===================================================================== *)
(** ** What the stored hashes are hashes of *)
(* ===================================================================== *)

Section Genuine.

Context {B : Bcrypt} {J : JwtService} (cfg : ConfigService).

Lemma names_patch i h db :
  hashes_name_their_row cfg db ->
  (h = None
   \/ exists p t salt,
        sub p = i
        /\ h = Some (bcrypt_hash
                       (signAsync p (JWT_REFRESH_SECRET cfg)
                                  (JWT_REFRESH_EXPIRATION cfg) t) salt)) ->
  hashes_name_their_row cfg (patch_refreshToken i h db).
Proof.
  intros Hdb Hh u Hin. unfold patch_refreshToken in Hin.
  apply in_map_iff in Hin. destruct Hin as (u0 & Hu & Hin0).
  destruct (where_id i u0) eqn:E; subst u.
  - apply String.eqb_eq in E. cbn [refreshToken set_refreshToken id].
    destruct Hh as [-> | (p & t & salt & Hsub & ->)]; [now left|].
    right. exists p, t, salt. split; [congruence | reflexivity].
  - now apply Hdb.
Qed.

Lemma names_insert db row :
  hashes_name_their_row cfg db ->
  refreshToken row = None ->
  hashes_name_their_row cfg (db ++ [row])%list.
Proof.
  intros Hdb Hrow u Hin. apply in_app_or in Hin. destruct Hin as [Hin | [<- | []]].
  - now apply Hdb.
  - now left.
Qed.

Lemma names_perform db op :
  hashes_name_their_row cfg db ->
  hashes_name_their_row cfg (perform cfg db op).
Proof.
  intro Hdb. destruct op as [salt gid dto | now salt dto | now salt uid tok | uid];
    cbn [perform].
  - run_async. destruct (find _ db); [exact Hdb|]. cbn [create email].
    destruct (existsb _ db); [exact Hdb|]. cbn [snd]. now apply names_insert.
  - run_async. destruct (find _ db) as [u|]; [|exact Hdb].
    destruct (negb (isActive u)); [exact Hdb|].
    destruct (negb (bcrypt_compare _ _)); [exact Hdb|]. cbn [snd].
    apply names_patch; [exact Hdb|]. right. unfold generateTokens. cbn.
    eexists (mkJwtPayload _ _ _), _, _. split; reflexivity.
  - run_async. destruct (find _ db) as [u|]; [|exact Hdb].
    destruct (falsy _); [exact Hdb|].
    destruct (negb (bcrypt_compare _ _)); [exact Hdb|]. cbn [snd].
    apply names_patch; [exact Hdb|]. right. unfold generateTokens. cbn.
    eexists (mkJwtPayload _ _ _), _, _. split; reflexivity.
  - change (snd (logout uid db)) with (patch_refreshToken uid None db).
    apply names_patch; [exact Hdb | now left].
Qed.

Lemma names_perform_all history :
  forall db,
    hashes_name_their_row cfg db ->
    hashes_name_their_row cfg (perform_all cfg history db).
Proof.
  unfold perform_all. induction history as [|op history IH]; intros db Hdb.
  - exact Hdb.
  - cbn [fold_left]. apply IH. now apply names_perform.
Qed.

End Genuine.

(** X14.  A call that throws has written nothing: whenever [register],
    [login], [refreshTokens] or the guarded refresh route rejects, the table
    is the one the call started from. *)
Theorem rejected_calls_write_nothing {B : Bcrypt} {J : JwtService}
    (cfg : ConfigService) db :
  (forall salt generatedId registerDto e db',
     register salt generatedId registerDto db = (Rejected e, db') -> db' = db)
  /\ (forall now salt loginDto e db',
        login cfg now salt loginDto db = (Rejected e, db') -> db' = db)
  /\ (forall now salt userId presented e db',
        refreshTokens cfg now salt userId presented db = (Rejected e, db') -> db' = db)
  /\ (forall now salt body e db',
        AuthController_refresh cfg now salt body db = (Rejected e, db') -> db' = db).
Proof.
  assert (forall now salt userId presented e db',
             refreshTokens cfg now salt userId presented db = (Rejected e, db') ->
             db' = db) as Hservice.
  { intros now salt userId presented e db'. run_async.
    destruct (find _ db) as [u|]; [|congruence].
    destruct (falsy _); [congruence|].
    destruct (negb (bcrypt_compare _ _)); [congruence | discriminate]. }
  split; [|split; [|split; [exact Hservice|]]].
  - intros salt generatedId registerDto e db'. run_async.
    destruct (find _ db); [congruence|]. cbn [create email].
    destruct (existsb _ db); [congruence | discriminate].
  - intros now salt loginDto e db'. run_async.
    destruct (find _ db) as [u|]; [|congruence].
    destruct (negb (isActive u)); [congruence|].
    destruct (negb (bcrypt_compare _ _)); [congruence | discriminate].
  - intros now salt body e db'.
    unfold AuthController_refresh, JwtRefreshGuard, passport_jwt,
      JwtRefreshStrategy_validate, bind, findOne, throw, ret.
    destruct body as [token|]; [|congruence].
    destruct (String.eqb token ""); [congruence|].
    destruct (verifyAsync token (JWT_REFRESH_SECRET cfg) now); [|congruence|congruence].
    destruct (find _ db) as [u|]; [|congruence].
    destruct (falsy (refreshToken u)); [congruence|]. apply Hservice.
Qed.

(* ===================================================================== *)
(** ** Two registrations of one email in flight *)
(* ===================================================================== *)

(** X15.  When two registrations of one free email overlap, so that the
    second has looked the email up before the first has saved, the first
    succeeds and the second is stopped by the store and fails with
    InternalServerError 'Failed to register user', not with the conflict
    error; the table gains one row only.  ([register] itself is the lookup
    followed by [register_after_lookup] on the same table.) *)
Theorem register_race_loser_gets_internal_error {B : Bcrypt}
    saltA idA dtoA saltB idB dtoB db :
  (forall user, In user db -> email user <> reg_email dtoA) ->
  reg_email dtoB = reg_email dtoA ->
  let lookupB := find (where_email (reg_email dtoB)) db in
  let db1 := snd (register saltA idA dtoA db) in
  (forall salt generatedId registerDto table,
     register salt generatedId registerDto table
     = register_after_lookup (find (where_email (reg_email registerDto)) table)
                             salt generatedId registerDto table)
  /\ is_resolved (fst (register saltA idA dtoA db)) = true
  /\ register_after_lookup lookupB saltB idB dtoB db1
     = (Rejected (InternalServerErrorException "Failed to register user"), db1)
  /\ length db1 = S (length db).
Proof.
  intros Hfree Hsame lookupB db1. split.
  { intros salt generatedId registerDto table.
    unfold register, register_after_lookup, bind, findOne.
    destruct (find _ table); reflexivity. }
  apply (proj2 (find_email_none _ _)) in Hfree.
  unfold lookupB, db1. rewrite Hsame, Hfree, (register_fresh _ _ _ _ Hfree).
  cbn [fst snd is_resolved]. repeat split.
  - unfold register_after_lookup, try_catch, bind, save, throw, ret.
    cbn [create email]. rewrite Hsame.
    assert (existsb (where_email (reg_email dtoA))
              (db ++ [mkUser idA (reg_email dtoA)
                        (bcrypt_hash (reg_password dtoA) saltA)
                        (match reg_role dtoA with Some r => r | None => USER end)
                        None true]) = true) as ->; [|reflexivity].
    rewrite existsb_app. apply orb_true_iff. right. cbn.
    unfold where_email. cbn [email]. now rewrite String.eqb_refl.
  - rewrite length_app. cbn. lia.
Qed.

Lemma register_race_loser_gets_internal_error_witness :
  register_after_lookup (B := plainBcrypt) None "s9" "u2"
    (mkRegisterDto "test@example.com" "DifferentPassword123" None) Scenario.registered
  = (Rejected (InternalServerErrorException "Failed to register user"),
     Scenario.registered).
Proof.
  apply (register_race_loser_gets_internal_error (B := plainBcrypt)
           "s1" "u1" (mkRegisterDto "test@example.com" "Password123" None)
           "s9" "u2" (mkRegisterDto "test@example.com" "DifferentPassword123" None) []).
  - intros user [].
  - reflexivity.
Defined.

(* ===================================================================== *)
(** ** Who reaches which route *)
(* ===================================================================== *)

(** X16.  The routes of the users controller, for a bearer token that
    verifies and whose subject has an active row: the profile and the user
    dashboard are reached whatever the role; the listing of all users only
    with role admin; the admin dashboard with role admin or moderator; in
    every other case the answer is Forbidden.  The role that counts is the
    one in the table, not the one in the token, and no guard writes. *)
Theorem users_controller_access {J : JwtService} (cfg : ConfigService)
    now token claims user db :
  token <> "" ->
  verifyAsync token (JWT_SECRET cfg) now = Verified claims ->
  find (where_id_active (sub (claims_payload claims))) db = Some user ->
  let reached := (Resolved (mkRequest (Some token) (Some user)), db) in
  let forbidden := (Rejected (ForbiddenException "Forbidden resource"), db) in
  snd (UsersController_request cfg now profile (Some token) db) = reached
  /\ snd (UsersController_request cfg now user_dashboard (Some token) db) = reached
  /\ snd (UsersController_request cfg now all (Some token) db)
     = match role user with ADMIN => reached | USER | MODERATOR => forbidden end
  /\ snd (UsersController_request cfg now admin_dashboard (Some token) db)
     = match role user with ADMIN | MODERATOR => reached | USER => forbidden end.
Proof.
  intros Hne Hverify Hfind reached forbidden.
  assert (JwtAuthGuard_guard cfg now (mkRequest (Some token) None) db
          = (Resolved (mkRequest (Some token) (Some user)), db)) as Hauth.
  { unfold JwtAuthGuard_guard. run_async. cbn [req_bearer].
    apply String.eqb_neq in Hne. now rewrite Hne, Hverify, Hfind. }
  unfold UsersController_request.
  repeat split; cbn [UsersController_guards run_guards]; rewrite Hauth;
    try reflexivity;
    unfold RolesGuard_guard, RolesGuard_canActivate, throw, ret;
    cbn [Roles decide req_user option_map has_role existsb];
    destruct (role user); reflexivity.
Qed.

Lemma users_controller_access_witness :
  let user := mkUser "u1" "test@example.com" (plain_hash "Password123" "s1") USER
                     (Some (plain_hash Scenario.issued_refreshToken "s2")) true in
  snd (UsersController_request (jwtService := plainJwt) testConfig 4 profile
         (Some Scenario.issued_accessToken) (snd Scenario.logged_in))
  = (Resolved (mkRequest (Some Scenario.issued_accessToken) (Some user)),
     snd Scenario.logged_in)
  /\ snd (UsersController_request (jwtService := plainJwt) testConfig 4 all
            (Some Scenario.issued_accessToken) (snd Scenario.logged_in))
     = (Rejected (ForbiddenException "Forbidden resource"), snd Scenario.logged_in).
Proof.
  intro user.
  destruct (users_controller_access (J := plainJwt) testConfig 4
              Scenario.issued_accessToken
              (mkJwtClaims (mkJwtPayload "u1" "test@example.com" USER) 3 18)
              user (snd Scenario.logged_in))
    as (Hprofile & _ & Hall & _).
  - discriminate.
  - reflexivity.
  - reflexivity.
  - split; [exact Hprofile | exact Hall].
Defined.

(* ===================================================================== *)
(** ** The second reference instance meets the contracts *)
(* ===================================================================== *)

Lemma strip_prefix_append (pre s : string) : strip_prefix pre (pre ++ s) = Some s.
Proof.
  induction pre as [|c pre IH]; simpl; [reflexivity|].
  now rewrite Ascii.eqb_refl.
Qed.

Lemma trunc_reads_72_bytes : bcrypt_reads_72_bytes truncatingBcrypt.
Proof.
  intros data data' salt Hsame. simpl. unfold trunc_compare, trunc_hash.
  rewrite dec_str_enc, Hsame. apply String.eqb_refl.
Qed.

Lemma trunc_accepts_own : bcrypt_accepts_own truncatingBcrypt.
Proof. intros data salt. now apply trunc_reads_72_bytes. Qed.

Lemma trunc_rejects_empty_digest : bcrypt_rejects_empty_digest truncatingBcrypt.
Proof. intro data. reflexivity. Qed.

Lemma framed_verify_sign p secret secret' expiresIn issued now :
  framed_verify (framed_sign p secret expiresIn issued) secret' now
  = plain_verify (plain_sign p secret expiresIn issued) secret' now.
Proof. unfold framed_verify, framed_sign. now rewrite strip_prefix_append. Qed.

Lemma framed_verifies_own : jwt_verifies_own framedJwt.
Proof.
  intros p secret expiresIn issued now H. simpl. rewrite framed_verify_sign.
  now apply plain_verifies_own.
Qed.

Lemma framed_expires : jwt_expires framedJwt.
Proof.
  intros p secret expiresIn issued now H. simpl. rewrite framed_verify_sign.
  now apply plain_expires.
Qed.

Lemma framed_key_separation : jwt_key_separation framedJwt.
Proof.
  intros p secret secret' expiresIn issued now H. simpl. rewrite framed_verify_sign.
  now apply plain_key_separation.
Qed.

Lemma framed_tokens_nonempty : jwt_tokens_nonempty framedJwt.
Proof. intros p secret expiresIn issued. discriminate. Qed.

Lemma substring_nothing (s : string) : substring 0 0 s = "".
Proof. destruct s; reflexivity. Qed.

Lemma framed_shared_prefix : jwt_shared_prefix framedJwt.
Proof.
  intros p secret expiresIn t t'. simpl. now rewrite !substring_nothing.
Qed.

(* ===================================================================== *)
(** ** Rotation against a hasher that reads 72 bytes *)
(* ===================================================================== *)

Lemma reads_72_accepts_own {B : Bcrypt} :
  bcrypt_reads_72_bytes B -> bcrypt_accepts_own B.
Proof. intros H data salt. now apply H. Qed.

(** Once the hash of a token is stored for an id, every text that agrees
    with the token on its first 72 bytes is accepted for that id. *)
Lemma same_prefix_accepted {B : Bcrypt} {J : JwtService} (cfg : ConfigService)
    now salt i presented token salt0 db row :
  bcrypt_reads_72_bytes B ->
  bcrypt_rejects_empty_digest B ->
  find (where_id i) db = Some row ->
  substring 0 72 presented = substring 0 72 token ->
  let db1 := patch_refreshToken i (Some (bcrypt_hash token salt0)) db in
  refreshTokens cfg now salt i presented db1
  = (Resolved (generateTokens cfg now row),
     patch_refreshToken i
       (Some (bcrypt_hash (refreshTokenOf (generateTokens cfg now row)) salt)) db1).
Proof.
  intros Hreads Hempty Hfind Hsame db1. run_async. unfold db1.
  rewrite find_id_patch, Hfind. cbn [option_map set_refreshToken refreshToken].
  rewrite (hash_not_empty _ _ (reads_72_accepts_own Hreads) Hempty).
  rewrite (Hreads _ _ _ Hsame). cbn.
  apply find_some in Hfind. destruct Hfind as [_ Hid]. apply String.eqb_eq in Hid.
  now rewrite <- Hid.
Qed.

(** When the guard lets a token through, the route is the service method
    called with the subject of the token. *)
Lemma route_is_service_behind_guard {B : Bcrypt} {J : JwtService}
    (cfg : ConfigService) now salt token claims userId active db :
  token <> "" ->
  verifyAsync token (JWT_REFRESH_SECRET cfg) now = Verified claims ->
  sub (claims_payload claims) = userId ->
  find (where_id_active userId) db = Some active ->
  falsy (refreshToken active) = false ->
  AuthController_refresh cfg now salt (Some token) db
  = refreshTokens cfg now salt userId token db.
Proof.
  intros Hne Hverify Hsub Hfind Hlive.
  unfold AuthController_refresh, JwtRefreshGuard, passport_jwt,
    JwtRefreshStrategy_validate, bind, findOne, throw, ret.
  apply String.eqb_neq in Hne. rewrite Hne, Hverify, Hsub, Hfind, Hlive.
  apply find_some in Hfind. destruct Hfind as [_ Hid].
  unfold where_id_active in Hid. apply andb_prop in Hid. destruct Hid as [Hid _].
  apply String.eqb_eq in Hid. now rewrite Hid.
Qed.

(** C1 (what the code does with a rotated token).  bcrypt reads the first 72 bytes of
    a token, and the tokens signed for one principal agree on them.  So for
    an active principal with a live session: a refresh presenting the stored
    token succeeds and stores the hash of the new refresh token; and a later
    refresh presenting the old, rotated token is not refused - the service
    method accepts it at every clock second and rotates again, and so does
    the guarded route while the old token has not expired. *)
Theorem rotated_refresh_token_is_still_accepted {B : Bcrypt} {J : JwtService}
    (cfg : ConfigService) db userId user issued salt0 now salt now' salt' :
  bcrypt_reads_72_bytes B ->
  bcrypt_rejects_empty_digest B ->
  jwt_shared_prefix J ->
  jwt_verifies_own J ->
  jwt_tokens_nonempty J ->
  find (where_id userId) db = Some user ->
  isActive user = true ->
  refreshToken user
  = Some (bcrypt_hash (refreshTokenOf (generateTokens cfg issued user)) salt0) ->
  let presented := refreshTokenOf (generateTokens cfg issued user) in
  let tokens := generateTokens cfg now user in
  let db' :=
    patch_refreshToken userId (Some (bcrypt_hash (refreshTokenOf tokens) salt)) db in
  let tokens' := generateTokens cfg now' user in
  let db'' :=
    patch_refreshToken userId (Some (bcrypt_hash (refreshTokenOf tokens') salt')) db' in
  refreshTokens cfg now salt userId presented db = (Resolved tokens, db')
  /\ stored_hash userId db' = Some (bcrypt_hash (refreshTokenOf tokens) salt)
  /\ refreshTokens cfg now' salt' userId presented db' = (Resolved tokens', db'')
  /\ (now' < issued + JWT_REFRESH_EXPIRATION cfg ->
      AuthController_refresh cfg now' salt' (Some presented) db'
      = (Resolved tokens', db'')).
Proof.
  intros Hreads Hempty Hprefix Hverify Hnonempty Hfind Hon Hstored
         presented tokens db' tokens' db''.
  assert (id user = userId) as Hid.
  { apply find_some in Hfind. destruct Hfind as [_ E]. now apply String.eqb_eq in E. }
  assert (refreshTokens cfg now' salt' userId presented db' = (Resolved tokens', db''))
    as Hagain.
  { apply (same_prefix_accepted cfg now' salt' userId presented
             (refreshTokenOf tokens) salt db user Hreads Hempty Hfind).
    apply Hprefix. }
  repeat split.
  - run_async. rewrite Hfind, Hstored.
    rewrite (hash_not_empty _ _ (reads_72_accepts_own Hreads) Hempty).
    rewrite (reads_72_accepts_own Hreads). cbn. unfold db'. now rewrite <- Hid.
  - unfold db'. now rewrite (stored_hash_patch _ _ _ _ Hfind).
  - exact Hagain.
  - intro Hlive. rewrite <- Hagain.
    destruct (find_of_member (where_id_active userId) user db) as (active & Hactive & _).
    { now apply find_some in Hfind. }
    { unfold where_id_active. now rewrite Hid, String.eqb_refl, Hon. }
    apply (route_is_service_behind_guard cfg now' salt' presented
             (mkJwtClaims (mkJwtPayload (id user) (email user) (role user)) issued
                          (issued + JWT_REFRESH_EXPIRATION cfg))
             userId
             (set_refreshToken (Some (bcrypt_hash (refreshTokenOf tokens) salt)) active)).
    + apply Hnonempty.
    + unfold presented, generateTokens. cbn [refreshTokenOf]. now apply Hverify.
    + exact Hid.
    + unfold db'. now rewrite find_id_active_patch, Hactive.
    + cbn [set_refreshToken refreshToken].
      apply (hash_not_empty _ _ (reads_72_accepts_own Hreads) Hempty).
Qed.

Lemma rotated_refresh_token_is_still_accepted_witness :
  let user := mkUser "u1" "test@example.com" (trunc_hash "Password123" "s1") USER
                     (Some (trunc_hash Scenario72.issued_refreshToken "s2")) true in
  let presented := Scenario72.issued_refreshToken in
  let db := snd Scenario72.logged_in in
  let tokens := generateTokens (jwtService := framedJwt) testConfig 4 user in
  let db' := patch_refreshToken "u1" (Some (trunc_hash (refreshTokenOf tokens) "s3")) db in
  let tokens' := generateTokens (jwtService := framedJwt) testConfig 5 user in
  let db'' :=
    patch_refreshToken "u1" (Some (trunc_hash (refreshTokenOf tokens') "s4")) db' in
  refreshTokens (bcrypt := truncatingBcrypt) (jwtService := framedJwt)
                testConfig 4 "s3" "u1" presented db
  = (Resolved tokens, db')
  /\ refreshTokenOf tokens <> presented
  /\ AuthController_refresh (bcrypt := truncatingBcrypt) (jwtService := framedJwt)
       testConfig 5 "s4" (Some presented) db'
     = (Resolved tokens', db'').
Proof.
  intros user presented db tokens db' tokens' db''.
  destruct (rotated_refresh_token_is_still_accepted
              (B := truncatingBcrypt) (J := framedJwt) testConfig
              db "u1" user 3 "s2" 4 "s3" 5 "s4"
              trunc_reads_72_bytes trunc_rejects_empty_digest framed_shared_prefix
              framed_verifies_own framed_tokens_nonempty eq_refl eq_refl eq_refl)
    as (Hrotation & _ & _ & Hroute).
  split; [exact Hrotation|]. split; [vm_compute; discriminate|].
  apply Hroute. simpl. lia.
Defined.

(* ===================================================================== *)
(** ** Two refresh calls under any schedule that reads before it writes *)
(* ===================================================================== *)

Section RaceFromTheStart.

Context {B : Bcrypt} {J : JwtService} (cfg : ConfigService).
Variables (user : User) (h0 : string) (a b : RefreshCall) (db : Table).
Hypothesis stored : refreshToken user = Some h0.
Hypothesis not_null : falsy (Some h0) = false.
Hypothesis presented_a : bcrypt_compare (call_presented a) h0 = true.
Hypothesis presented_b : bcrypt_compare (call_presented b) h0 = true.
Hypothesis found_a : find (where_id (call_userId a)) db = Some user.
Hypothesis found_b : find (where_id (call_userId b)) db = Some user.

(** One await of a call, the lookup included; the lookup needs the row to
    be there, the last await writes. *)
Lemma step_standing c n table :
  bcrypt_compare (call_presented c) h0 = true ->
  (n = 4 -> find (where_id (call_userId c)) table = Some user) ->
  n <= 4 ->
  refresh_step cfg (standing cfg user c (S n)) table
  = (standing cfg user c n,
     match n with
     | 0 => patch_refreshToken (id user) (Some (hashed_of cfg user c)) table
     | _ => table
     end).
Proof.
  intros Hcmp Hfind Hn. destruct n as [|[|[|[|[|n]]]]]; try lia.
  - apply (step_on_track cfg user h0 stored c 0 table Hcmp). lia.
  - apply (step_on_track cfg user h0 stored c 1 table Hcmp). lia.
  - apply (step_on_track cfg user h0 stored c 2 table Hcmp). lia.
  - apply (step_on_track cfg user h0 stored c 3 table Hcmp). lia.
  - apply (read_on_track cfg user h0 stored not_null (at_pc c await_findOne) table
             eq_refl (Hfind eq_refl)).
Qed.

Lemma step_standing_settled c table :
  refresh_step cfg (standing cfg user c 0) table = (standing cfg user c 0, table).
Proof. reflexivity. Qed.

Lemma last_update_step_first schedule na nb writer :
  last_update (first :: schedule) (S na) nb writer
  = last_update schedule na nb (match na with 0 => Some first | _ => writer end).
Proof. destruct na; reflexivity. Qed.

Lemma last_update_step_second schedule na nb writer :
  last_update (second :: schedule) na (S nb) writer
  = last_update schedule na nb (match nb with 0 => Some second | _ => writer end).
Proof. destruct nb; reflexivity. Qed.

Lemma table_after_step db0 n t writer :
  match n with
  | 0 => patch_refreshToken (id user)
           (Some (hashed_of cfg user (match t with first => a | second => b end)))
           (table_after cfg db0 user a b writer)
  | _ => table_after cfg db0 user a b writer
  end
  = table_after cfg db0 user a b (match n with 0 => Some t | _ => writer end).
Proof. destruct n; [apply table_after_write | reflexivity]. Qed.

(** The race by counting, from before the lookups: as long as no call
    writes before the other has read, each call has as many awaits left as
    the schedule has not yet given it, and the table shows the write of the
    call whose update came last. *)
Lemma run_race_standing schedule :
  forall na nb writer,
    na <= 5 -> nb <= 5 ->
    (na = 5 \/ nb = 5 -> writer = None) ->
    reads_before_writes schedule na nb = true ->
    run_race cfg schedule
      (mkRace (standing cfg user a na) (standing cfg user b nb)
              (table_after cfg db user a b writer))
    = mkRace (standing cfg user a (na - count_turn first schedule))
             (standing cfg user b (nb - count_turn second schedule))
             (table_after cfg db user a b (last_update schedule na nb writer)).
Proof.
  unfold run_race.
  induction schedule as [|t schedule IH]; intros na nb writer Hna Hnb Hfresh Hok.
  - cbn. now rewrite !Nat.sub_0_r.
  - destruct t.
    + cbn [fold_left race_step race_first race_second race_db].
      change (count_turn first (first :: schedule)) with (S (count_turn first schedule)).
      change (count_turn second (first :: schedule)) with (count_turn second schedule).
      destruct na as [|na].
      * rewrite step_standing_settled. cbn [last_update]. now apply IH.
      * rewrite step_standing; [|exact presented_a| |lia].
        2: { intros ->. now rewrite (Hfresh (or_introl eq_refl)). }
        rewrite (table_after_step db na first writer), last_update_step_first.
        apply IH; [lia | lia | |].
        -- intros [-> | ->]; [lia|].
           destruct na as [|na]; [|now apply Hfresh; right].
           cbn in Hok. discriminate.
        -- destruct na as [|na]; [|exact Hok].
           cbn in Hok. apply andb_prop in Hok. now destruct Hok.
    + cbn [fold_left race_step race_first race_second race_db].
      change (count_turn second (second :: schedule)) with (S (count_turn second schedule)).
      change (count_turn first (second :: schedule)) with (count_turn first schedule).
      destruct nb as [|nb].
      * rewrite step_standing_settled. cbn [last_update].
        now apply IH.
      * rewrite step_standing; [|exact presented_b| |lia].
        2: { intros ->. now rewrite (Hfresh (or_intror eq_refl)). }
        rewrite (table_after_step db nb second writer), last_update_step_second.
        apply IH; [lia | lia | |].
        -- intros [-> | ->]; [|lia].
           destruct nb as [|nb]; [|now apply Hfresh; left].
           cbn in Hok. discriminate.
        -- destruct nb as [|nb].
           ++ cbn in Hok. apply andb_prop in Hok. now destruct Hok.
           ++ destruct na; exact Hok.
Qed.

End RaceFromTheStart.

(** C2 (as amended).  Two refresh calls present the stored refresh token of
    one principal.  Under every schedule in which both calls look the
    principal up before either writes, and which lets both finish, both
    calls succeed, each with the pair it signed, and the table holds the
    hash written by the call whose update ran last. *)
Theorem refresh_race_outcomes {B : Bcrypt} {J : JwtService} (cfg : ConfigService)
    db userId user h0 presented nowA saltA nowB saltB schedule :
  find (where_id userId) db = Some user ->
  refreshToken user = Some h0 ->
  falsy (Some h0) = false ->
  bcrypt_compare presented h0 = true ->
  reads_before_writes schedule 5 5 = true ->
  5 <= count_turn first schedule ->
  5 <= count_turn second schedule ->
  let a := start_refresh nowA saltA userId presented in
  let b := start_refresh nowB saltB userId presented in
  let tokensA := generateTokens cfg nowA user in
  let tokensB := generateTokens cfg nowB user in
  let hashedA := bcrypt_hash (refreshTokenOf tokensA) saltA in
  let hashedB := bcrypt_hash (refreshTokenOf tokensB) saltB in
  exists last,
    last_update schedule 5 5 None = Some last
    /\ run_race cfg schedule (mkRace a b db)
       = mkRace (at_pc a (settled (Resolved tokensA)))
                (at_pc b (settled (Resolved tokensB)))
                (patch_refreshToken userId
                   (Some (match last with first => hashedA | second => hashedB end))
                   db).
Proof.
  intros Hfind Hstored Hnull Hcmp Hreads Hfirst Hsecond
         a b tokensA tokensB hashedA hashedB.
  assert (id user = userId) as Hid.
  { apply find_some in Hfind. destruct Hfind as [_ E]. now apply String.eqb_eq in E. }
  destruct (last_update schedule 5 5 None) as [last|] eqn:Hlast.
  2: { exfalso. apply (last_update_complete schedule 5 5 None); trivial. left. lia. }
  exists last. split; [reflexivity|].
  change (mkRace a b db)
    with (mkRace (standing cfg user a 5) (standing cfg user b 5)
                 (table_after cfg db user a b None)).
  rewrite (run_race_standing cfg user h0 a b db Hstored Hnull Hcmp Hcmp Hfind Hfind
             schedule 5 5 None); trivial; try lia.
  rewrite Hlast.
  replace (5 - count_turn first schedule) with 0 by lia.
  replace (5 - count_turn second schedule) with 0 by lia.
  rewrite <- Hid. destruct last; reflexivity.
Qed.

Lemma refresh_race_outcomes_witness :
  let user :=
    mkUser "u1" "test@example.com" (plain_hash "Password123" "s1") USER
           (Some (plain_hash Scenario.issued_refreshToken "s2")) true in
  let tokensA := generateTokens (jwtService := plainJwt) testConfig 4 user in
  let tokensB := generateTokens (jwtService := plainJwt) testConfig 5 user in
  run_race (bcrypt := plainBcrypt) (jwtService := plainJwt) testConfig
           Scenario.interleaved Scenario.two_calls
  = mkRace (at_pc (race_first Scenario.two_calls) (settled (Resolved tokensA)))
           (at_pc (race_second Scenario.two_calls) (settled (Resolved tokensB)))
           (patch_refreshToken "u1" (Some (plain_hash (refreshTokenOf tokensB) "s4"))
                               (snd Scenario.logged_in))
  /\ run_race (bcrypt := plainBcrypt) (jwtService := plainJwt) testConfig
              [second; second; second; second; first; second;
               first; first; first; first]
              Scenario.two_calls
     = mkRace (at_pc (race_first Scenario.two_calls) (settled (Resolved tokensA)))
              (at_pc (race_second Scenario.two_calls) (settled (Resolved tokensB)))
              (patch_refreshToken "u1" (Some (plain_hash (refreshTokenOf tokensA) "s3"))
                                  (snd Scenario.logged_in)).
Proof.
  intros user tokensA tokensB. split.
  - destruct (refresh_race_outcomes (B := plainBcrypt) (J := plainJwt) testConfig
                (snd Scenario.logged_in) "u1" user
                (plain_hash Scenario.issued_refreshToken "s2")
                Scenario.issued_refreshToken 4 "s3" 5 "s4" Scenario.interleaved
                eq_refl eq_refl eq_refl eq_refl eq_refl)
      as (last & Hlast & Hrun); [cbn; lia | cbn; lia |].
    cbn in Hlast. injection Hlast as <-. exact Hrun.
  - destruct (refresh_race_outcomes (B := plainBcrypt) (J := plainJwt) testConfig
                (snd Scenario.logged_in) "u1" user
                (plain_hash Scenario.issued_refreshToken "s2")
                Scenario.issued_refreshToken 4 "s3" 5 "s4"
                [second; second; second; second; first; second;
                 first; first; first; first]
                eq_refl eq_refl eq_refl eq_refl eq_refl)
      as (last & Hlast & Hrun); [cbn; lia | cbn; lia |].
    cbn in Hlast. injection Hlast as <-. exact Hrun.
Defined.

(* ===================================================================== *)
(** ** Access tokens and refresh tokens are not interchangeable *)
(* ===================================================================== *)

(** C8.  When the two configured secrets differ (and the codec refuses a
    token under a secret other than the one that signed it), for every
    principal, that is for every payload [generateTokens] signs: the access
    token of the pair does not verify under the refresh secret and the
    refresh token does not verify under the access secret; the refresh
    guard and the refresh route turn the access token away, and the access
    guard turns the refresh token away.  Under its own secret each of the
    two verifies until its own lifetime is over. *)
Theorem tokens_not_interchangeable {B : Bcrypt} {J : JwtService}
    (cfg : ConfigService) issued now salt user db :
  jwt_key_separation J ->
  JWT_SECRET cfg <> JWT_REFRESH_SECRET cfg ->
  let tokens := generateTokens cfg issued user in
  let payload := mkJwtPayload (id user) (email user) (role user) in
  verifyAsync (accessToken tokens) (JWT_REFRESH_SECRET cfg) now = TokenMalformed
  /\ verifyAsync (refreshTokenOf tokens) (JWT_SECRET cfg) now = TokenMalformed
  /\ JwtRefreshGuard cfg now (Some (accessToken tokens)) db
     = (Rejected Unauthenticated, db)
  /\ AuthController_refresh cfg now salt (Some (accessToken tokens)) db
     = (Rejected Unauthenticated, db)
  /\ JwtAuthGuard cfg now (Some (refreshTokenOf tokens)) db
     = (Rejected Unauthenticated, db)
  /\ (jwt_verifies_own J ->
      (now < issued + JWT_EXPIRATION cfg ->
       verifyAsync (accessToken tokens) (JWT_SECRET cfg) now
       = Verified (mkJwtClaims payload issued (issued + JWT_EXPIRATION cfg)))
      /\ (now < issued + JWT_REFRESH_EXPIRATION cfg ->
          verifyAsync (refreshTokenOf tokens) (JWT_REFRESH_SECRET cfg) now
          = Verified (mkJwtClaims payload issued
                                  (issued + JWT_REFRESH_EXPIRATION cfg)))).
Proof.
  intros Hsep Hne tokens payload.
  assert (verifyAsync (accessToken tokens) (JWT_REFRESH_SECRET cfg) now = TokenMalformed)
    as Haccess by (apply Hsep; exact Hne).
  assert (verifyAsync (refreshTokenOf tokens) (JWT_SECRET cfg) now = TokenMalformed)
    as Hrefresh by (apply Hsep; congruence).
  split; [exact Haccess|]. split; [exact Hrefresh|].
  assert (JwtRefreshGuard cfg now (Some (accessToken tokens)) db
          = (Rejected Unauthenticated, db)) as Hguard.
  { unfold JwtRefreshGuard, passport_jwt, throw.
    destruct (String.eqb _ ""); [reflexivity|]. now rewrite Haccess. }
  split; [exact Hguard|]. split; [|split].
  - unfold AuthController_refresh, bind. now rewrite Hguard.
  - unfold JwtAuthGuard, passport_jwt, throw.
    destruct (String.eqb _ ""); [reflexivity|]. now rewrite Hrefresh.
  - intro Hown. split; intro Hlive; now apply Hown.
Qed.

Lemma tokens_not_interchangeable_witness :
  let user := mkUser "u1" "test@example.com" (plain_hash "Password123" "s1") USER
                     (Some (plain_hash Scenario.issued_refreshToken "s2")) true in
  AuthController_refresh (bcrypt := plainBcrypt) (jwtService := plainJwt) testConfig
    4 "s3" (Some Scenario.issued_accessToken) (snd Scenario.logged_in)
  = (Rejected Unauthenticated, snd Scenario.logged_in)
  /\ JwtAuthGuard (jwtService := plainJwt) testConfig 4
       (Some Scenario.issued_refreshToken) (snd Scenario.logged_in)
     = (Rejected Unauthenticated, snd Scenario.logged_in).
Proof.
  intro user.
  destruct (tokens_not_interchangeable (B := plainBcrypt) (J := plainJwt) testConfig
              3 4 "s3" user (snd Scenario.logged_in) plain_key_separation)
    as (_ & _ & _ & Hroute & Haccess & _).
  - simpl. discriminate.
  - split; [exact Hroute | exact Haccess].
Defined.

(* ===================================================================== *)
(** ** Passwords and sessions against a hasher that reads 72 bytes *)
(* ===================================================================== *)

(** X2.  After a registration under a free email, a login with that email
    fails with InvalidCredentials, and leaves the table as the registration
    left it, whenever bcrypt does not verify the attempted password against
    the digest stored at registration; and since bcrypt reads 72 bytes, an
    attempt that agrees with the registered password on its first 72 bytes
    logs in, whatever follows them. *)
Theorem register_then_other_password {B : Bcrypt} {J : JwtService}
    (cfg : ConfigService) salt generatedId registerDto now salt' attempt db :
  (forall user, In user db -> email user <> reg_email registerDto) ->
  let db1 := snd (register salt generatedId registerDto db) in
  let attemptDto := mkLoginDto (reg_email registerDto) attempt in
  (bcrypt_compare attempt (bcrypt_hash (reg_password registerDto) salt) = false ->
   login cfg now salt' attemptDto db1 = (Rejected InvalidCredentials, db1))
  /\ (bcrypt_reads_72_bytes B ->
      substring 0 72 attempt = substring 0 72 (reg_password registerDto) ->
      is_resolved (fst (login cfg now salt' attemptDto db1)) = true).
Proof.
  intros Hfree db1 attemptDto.
  apply (proj2 (find_email_none _ _)) in Hfree.
  assert (forall verdict,
             bcrypt_compare attempt (bcrypt_hash (reg_password registerDto) salt)
             = verdict ->
             is_resolved (fst (login cfg now salt' attemptDto db1)) = verdict
             /\ (verdict = false ->
                 login cfg now salt' attemptDto db1 = (Rejected InvalidCredentials, db1)))
    as Hlogin.
  { intros verdict Hverdict. unfold db1, attemptDto.
    rewrite (register_fresh _ _ _ _ Hfree). cbn [snd].
    run_async. cbn [login_email login_password].
    rewrite (find_append_last _ _ _ Hfree). unfold where_email. cbn [email].
    rewrite String.eqb_refl. cbn [isActive negb password]. rewrite Hverdict.
    destruct verdict; cbn; split; trivial; discriminate. }
  split.
  - intro Hno. now apply (Hlogin false).
  - intros Hreads Hsame. apply (Hlogin true). now apply Hreads.
Qed.

Lemma register_then_other_password_witness :
  let db1 :=
    snd (register (bcrypt := truncatingBcrypt) "s1" "u1"
           (mkRegisterDto "test@example.com" Scenario72.long_password None) []) in
  login (bcrypt := truncatingBcrypt) (jwtService := framedJwt) testConfig 3 "s2"
        (mkLoginDto "test@example.com" "WrongPassword123") db1
  = (Rejected InvalidCredentials, db1)
  /\ Scenario72.long_password' <> Scenario72.long_password
  /\ is_resolved
       (fst (login (bcrypt := truncatingBcrypt) (jwtService := framedJwt) testConfig
               3 "s2" (mkLoginDto "test@example.com" Scenario72.long_password') db1))
     = true.
Proof.
  intro db1. split; [|split].
  - apply (proj1 (register_then_other_password
                    (B := truncatingBcrypt) (J := framedJwt) testConfig "s1" "u1"
                    (mkRegisterDto "test@example.com" Scenario72.long_password None)
                    3 "s2" "WrongPassword123" [] (fun user (H : In user []) => match H with end))).
    reflexivity.
  - discriminate.
  - apply (proj2 (register_then_other_password
                    (B := truncatingBcrypt) (J := framedJwt) testConfig "s1" "u1"
                    (mkRegisterDto "test@example.com" Scenario72.long_password None)
                    3 "s2" Scenario72.long_password' []
                    (fun user (H : In user []) => match H with end))).
    + exact trunc_reads_72_bytes.
    + reflexivity.
Defined.

(** X6.  A later login does not end an earlier session at the service.
    After a login has resolved, [refreshTokens] accepts, for the principal
    that logged in, every refresh token signed for that principal at
    whatever second - the one an earlier login returned among them:
    bcrypt compares its first 72 bytes with those of the token just
    issued, and they are the same.  (One defect with C1.) *)
Theorem login_keeps_earlier_refresh_tokens_usable {B : Bcrypt} {J : JwtService}
    (cfg : ConfigService) now salt loginDto db response db1 :
  bcrypt_reads_72_bytes B ->
  bcrypt_rejects_empty_digest B ->
  jwt_shared_prefix J ->
  login cfg now salt loginDto db = (Resolved response, db1) ->
  forall issued now' salt',
  exists user tokens,
    find (where_email (login_email loginDto)) db = Some user
    /\ id user = view_id (login_user response)
    /\ refreshTokens cfg now' salt' (id user)
         (refreshTokenOf (generateTokens cfg issued user)) db1
       = (Resolved tokens,
          patch_refreshToken (id user)
            (Some (bcrypt_hash (refreshTokenOf tokens) salt')) db1).
Proof.
  intros Hreads Hempty Hprefix Hlogin issued now' salt'.
  apply login_resolved in Hlogin.
  destruct Hlogin as (user & Hfind & _ & _ & -> & ->).
  exists user. apply find_some in Hfind as Hin. destruct Hin as [Hin _].
  destruct (find_id_of_member user db Hin) as (row & Hrow & _).
  eexists. split; [exact Hfind|]. split; [reflexivity|].
  apply (same_prefix_accepted cfg now' salt' (id user) _ _ salt db row Hreads Hempty Hrow).
  apply Hprefix.
Qed.

Lemma login_keeps_earlier_refresh_tokens_usable_witness :
  let db2 :=
    snd (login (bcrypt := truncatingBcrypt) (jwtService := framedJwt) testConfig 5 "s5"
           (mkLoginDto "test@example.com" "Password123") (snd Scenario72.logged_in)) in
  is_resolved
    (fst (refreshTokens (bcrypt := truncatingBcrypt) (jwtService := framedJwt)
            testConfig 6 "s6" "u1" Scenario72.issued_refreshToken db2))
  = true.
Proof.
  intro db2.
  destruct (login_keeps_earlier_refresh_tokens_usable
              (B := truncatingBcrypt) (J := framedJwt) testConfig
              5 "s5" (mkLoginDto "test@example.com" "Password123")
              (snd Scenario72.logged_in)
              (mkLoginResponse
                 (generateTokens (jwtService := framedJwt) testConfig 5 Scenario72.row)
                 (mkUserView "u1" "test@example.com" USER true))
              db2
              trunc_reads_72_bytes trunc_rejects_empty_digest framed_shared_prefix
              eq_refl 3 6 "s6") as (user & tokens & Hfind & _ & Hrefresh).
  vm_compute in Hfind. injection Hfind as <-.
  apply (f_equal (fun result => is_resolved (fst result))) in Hrefresh.
  exact Hrefresh.
Defined.

(* ===================================================================== *)
(** ** What the stored hashes are hashes of: the invariant *)
(* ===================================================================== *)

(** X13.  The service stores only hashes of refresh tokens it signed for the
    row that holds them: if every stored refresh hash is the hash of a token
    signed with the refresh secret and lifetime for the id of its row, then
    so it is after any history of calls; and it is so after any history
    that starts from the empty table. *)
Theorem stored_hashes_name_their_row {B : Bcrypt} {J : JwtService}
    (cfg : ConfigService) history :
  hashes_name_their_row cfg (perform_all cfg history [])
  /\ forall db,
       hashes_name_their_row cfg db ->
       hashes_name_their_row cfg (perform_all cfg history db).
Proof.
  split.
  - apply names_perform_all. intros u [].
  - apply names_perform_all.
Qed.

Lemma stored_hashes_name_their_row_witness :
  hashes_name_their_row (B := truncatingBcrypt) (J := framedJwt) testConfig
    (perform_all (bcrypt := truncatingBcrypt) (jwtService := framedJwt) testConfig
       [do_register "s1" "u1" (mkRegisterDto "test@example.com" "Password123" None);
        do_login 3 "s2" (mkLoginDto "test@example.com" "Password123");
        do_refresh 4 "s4" "u1" Scenario72.issued_refreshToken;
        do_register "s5" "u2" (mkRegisterDto "admin@example.com" "Password456" (Some ADMIN));
        do_logout "u1";
        do_login 7 "s7" (mkLoginDto "admin@example.com" "Password456")]
       []).
Proof.
  exact (proj1 (stored_hashes_name_their_row
                  (B := truncatingBcrypt) (J := framedJwt) testConfig
                  [do_register "s1" "u1"
                     (mkRegisterDto "test@example.com" "Password123" None);
                   do_login 3 "s2" (mkLoginDto "test@example.com" "Password123");
                   do_refresh 4 "s4" "u1" Scenario72.issued_refreshToken;
                   do_register "s5" "u2"
                     (mkRegisterDto "admin@example.com" "Password456" (Some ADMIN));
                   do_logout "u1";
                   do_login 7 "s7" (mkLoginDto "admin@example.com" "Password456")])).
Defined.
